(** * UserSuggest.vue: the search-and-selection controller

    A shallow embedding of the [<script setup>] block of
    [src/components/UserSuggest.vue] together with the part of the
    template that decides which handlers can run (the [disabled] binding
    of the input, the [v-if] of the dropdown and of the tag button).

    The component is event driven.  Each handler is a function on
    [State]; the browser services the handlers use ([setTimeout],
    [clearTimeout], [AbortController], [fetch], [console.error]) are part
    of the state, so that timers, in-flight requests and the list of
    network calls can be talked about.

    Numbers are integers, and the rows of the dropdown are modelled
    for array values of [suggestions].  Not modelled: the caret measurement ([updateCursorPosition],
    [cursorPosition], the zero-delay timer of [onKeydown]),
    [scrollIntoView], [preventDefault] and the style sheet. *)

From Stdlib Require Import ZArith List String Ascii Bool Lia DecimalString.
Import ListNotations.
Open Scope string_scope.
Open Scope list_scope.
Open Scope Z_scope.
Set Warnings "-register-all".

(* ================================================================== *)
(** * JavaScript values *)
(* ================================================================== *)

Module Js.

(** Values as [res.json()] delivers them, plus [undefined].  Numbers are
    integers; strings are sequences of code units below 256; an object
    is the list of its own members. *)
Inductive JsVal : Type :=
  | JUndefined
  | JNull
  | JBool (b : bool)
  | JNum (n : Z)
  | JStr (s : string)
  | JArr (items : list JsVal)
  | JObj (members : list (string * JsVal)).

(** A thrown value: only its [name] decides what [catch] does. *)
Record JsError : Type := mkError { err_name : string; err_message : string }.

Definition AbortError : JsError := mkError "AbortError" "signal is aborted without reason".
Definition TypeError (msg : string) : JsError := mkError "TypeError" msg.

(** ToBoolean. *)
Definition truthy (v : JsVal) : bool :=
  match v with
  | JUndefined | JNull => false
  | JBool b => b
  | JNum n => negb (n =? 0)
  | JStr s => negb (String.eqb s "")
  | JArr _ | JObj _ => true
  end.

(** [a || b]. *)
Definition or_else (a b : JsVal) : JsVal := if truthy a then a else b.

Fixpoint lookup (k : string) (members : list (string * JsVal)) : JsVal :=
  match members with
  | [] => JUndefined
  | (k', v) :: rest => if String.eqb k k' then v else lookup k rest
  end.

Definition len (s : string) : Z := Z.of_nat (String.length s).

(** [v.k] for a property name [k] that is not an index.  [None] is the
    [TypeError] of reading a property of [undefined] or [null]. *)
Definition getProp (v : JsVal) (k : string) : option JsVal :=
  match v with
  | JUndefined | JNull => None
  | JObj members => Some (lookup k members)
  | JArr items => Some (if String.eqb k "length" then JNum (Z.of_nat (List.length items)) else JUndefined)
  | JStr s => Some (if String.eqb k "length" then JNum (len s) else JUndefined)
  | JBool _ | JNum _ => Some JUndefined
  end.

Definition key_of_index (i : Z) : string := NilZero.string_of_int (Z.to_int i).

(** [v[i]] for a number [i]; [None] is the [TypeError] as above. *)
Definition getIndex (v : JsVal) (i : Z) : option JsVal :=
  match v with
  | JUndefined | JNull => None
  | JArr items => Some (if i <? 0 then JUndefined else nth (Z.to_nat i) items JUndefined)
  | JStr s =>
      Some (if i <? 0 then JUndefined
            else match String.get (Z.to_nat i) s with
                 | Some c => JStr (String c EmptyString)
                 | None => JUndefined
                 end)
  | JObj members => Some (lookup (key_of_index i) members)
  | JBool _ | JNum _ => Some JUndefined
  end.

(** White space of [String.prototype.trim] among the code units below
    256: TAB, LF, VT, FF, CR, SP and NBSP. *)
Definition isWhiteSpace (c : ascii) : bool :=
  let n := nat_of_ascii c in
  ((9 <=? n)%nat && (n <=? 13)%nat) || (n =? 32)%nat || (n =? 160)%nat.

Fixpoint trimStart (s : string) : string :=
  match s with
  | EmptyString => EmptyString
  | String c rest => if isWhiteSpace c then trimStart rest else s
  end.

Fixpoint trimEnd (s : string) : string :=
  match s with
  | EmptyString => EmptyString
  | String c rest =>
      match trimEnd rest with
      | EmptyString => if isWhiteSpace c then EmptyString else String c EmptyString
      | rest' => String c rest'
      end
  end.

Definition trim (s : string) : string := trimEnd (trimStart s).

(** Numbers as operands of [-] and [<]: [None] is NaN. *)
Definition digit_of (c : ascii) : option Z :=
  let n := nat_of_ascii c in
  if ((48 <=? n)%nat && (n <=? 57)%nat)%bool then Some (Z.of_nat (n - 48)) else None.

Fixpoint digits (acc : Z) (s : string) : option Z :=
  match s with
  | EmptyString => Some acc
  | String c rest =>
      match digit_of c with
      | Some d => digits (10 * acc + d) rest
      | None => None
      end
  end.

(** StringToNumber on the integer fragment: the empty string is 0 and
    an optionally signed run of decimal digits is its value.  The other
    literal forms (fractions, exponents, radix prefixes, [Infinity])
    denote numbers outside the integer model; they are read as NaN. *)
Definition stringToNumber (s : string) : option Z :=
  match trim s with
  | EmptyString => Some 0
  | String "-" (String c r) => option_map Z.opp (digits 0 (String c r))
  | String "+" (String c r) => digits 0 (String c r)
  | t => digits 0 t
  end.

(** ToNumber of the string an array element contributes to
    [Array.prototype.join]. *)
Fixpoint joinedToNumber (v : JsVal) : option Z :=
  match v with
  | JUndefined | JNull => Some 0
  | JNum n => Some n
  | JStr s => stringToNumber s
  | JArr [] => Some 0
  | JArr [w] => joinedToNumber w
  | JArr _ => None
  | JBool _ | JObj _ => None
  end.

(** ToNumber. *)
Definition toNumber (v : JsVal) : option Z :=
  match v with
  | JUndefined => None
  | JNull => Some 0
  | JBool b => Some (if b then 1 else 0)
  | JNum n => Some n
  | JStr s => stringToNumber s
  | JArr _ => joinedToNumber v
  | JObj _ => None
  end.

(** [i < v - 1]; a comparison with NaN is false. *)
Definition lt_pred (i : Z) (v : JsVal) : bool :=
  match toNumber v with
  | Some n => i <? n - 1
  | None => false
  end.

End Js.
Export Js.

(* ================================================================== *)
(** * State of the component and of the browser services it uses *)
(* ================================================================== *)

(** The two callbacks the component passes to [setTimeout]:
    [() => fetchUsers(target.value)] (line 84) and the closing callback
    of [handleBlur] (lines 100-103). *)
Inductive Callback : Type := CbFetch | CbBlur.

Record Timer : Type := mkTimer { tm_id : nat; tm_due : Z; tm_cb : Callback }.

(** [fetchUsers] suspends at [await fetch(...)] and at
    [await res.json()]. *)
Inductive Phase : Type := AwaitFetch | AwaitJson.

(** A suspended call of [fetchUsers]: the controller whose signal was
    passed to [fetch], the URL, and the [await] it is parked at. *)
Record Request : Type := mkRequest { req_signal : nat; req_url : string; req_phase : Phase }.

Record State : Type := mkState {
  (* refs, lines 5-12 *)
  selectedUser : JsVal;
  searchQuery : string;
  suggestions : JsVal;
  isOpen : bool;
  isLoading : bool;
  activeIndex : Z;
  isFocused : bool;
  (* lines 23-24 *)
  debounceTimer : option nat;
  abortCtrl : option nat;
  (* browser *)
  clock : Z;                 (* milliseconds *)
  timers : list Timer;       (* pending timers, in firing order *)
  nextTimer : nat;           (* next handle [setTimeout] returns *)
  nextCtrl : nat;            (* next [new AbortController()] *)
  aborted : list nat;        (* controllers whose signal is aborted *)
  inflight : list Request;   (* suspended calls of [fetchUsers] *)
  network : list string;     (* every URL passed to [fetch], oldest first *)
  console : list JsError     (* every value passed to [console.error] *)
}.

Definition set_selectedUser (v : JsVal) (s : State) : State :=
  mkState v (searchQuery s) (suggestions s) (isOpen s) (isLoading s) (activeIndex s) (isFocused s)
    (debounceTimer s) (abortCtrl s) (clock s) (timers s) (nextTimer s) (nextCtrl s) (aborted s)
    (inflight s) (network s) (console s).
Definition set_searchQuery (v : string) (s : State) : State :=
  mkState (selectedUser s) v (suggestions s) (isOpen s) (isLoading s) (activeIndex s) (isFocused s)
    (debounceTimer s) (abortCtrl s) (clock s) (timers s) (nextTimer s) (nextCtrl s) (aborted s)
    (inflight s) (network s) (console s).
Definition set_suggestions (v : JsVal) (s : State) : State :=
  mkState (selectedUser s) (searchQuery s) v (isOpen s) (isLoading s) (activeIndex s) (isFocused s)
    (debounceTimer s) (abortCtrl s) (clock s) (timers s) (nextTimer s) (nextCtrl s) (aborted s)
    (inflight s) (network s) (console s).
Definition set_isOpen (v : bool) (s : State) : State :=
  mkState (selectedUser s) (searchQuery s) (suggestions s) v (isLoading s) (activeIndex s) (isFocused s)
    (debounceTimer s) (abortCtrl s) (clock s) (timers s) (nextTimer s) (nextCtrl s) (aborted s)
    (inflight s) (network s) (console s).
Definition set_isLoading (v : bool) (s : State) : State :=
  mkState (selectedUser s) (searchQuery s) (suggestions s) (isOpen s) v (activeIndex s) (isFocused s)
    (debounceTimer s) (abortCtrl s) (clock s) (timers s) (nextTimer s) (nextCtrl s) (aborted s)
    (inflight s) (network s) (console s).
Definition set_activeIndex (v : Z) (s : State) : State :=
  mkState (selectedUser s) (searchQuery s) (suggestions s) (isOpen s) (isLoading s) v (isFocused s)
    (debounceTimer s) (abortCtrl s) (clock s) (timers s) (nextTimer s) (nextCtrl s) (aborted s)
    (inflight s) (network s) (console s).
Definition set_isFocused (v : bool) (s : State) : State :=
  mkState (selectedUser s) (searchQuery s) (suggestions s) (isOpen s) (isLoading s) (activeIndex s) v
    (debounceTimer s) (abortCtrl s) (clock s) (timers s) (nextTimer s) (nextCtrl s) (aborted s)
    (inflight s) (network s) (console s).
Definition set_debounceTimer (v : option nat) (s : State) : State :=
  mkState (selectedUser s) (searchQuery s) (suggestions s) (isOpen s) (isLoading s) (activeIndex s)
    (isFocused s) v (abortCtrl s) (clock s) (timers s) (nextTimer s) (nextCtrl s) (aborted s)
    (inflight s) (network s) (console s).
Definition set_abortCtrl (v : option nat) (s : State) : State :=
  mkState (selectedUser s) (searchQuery s) (suggestions s) (isOpen s) (isLoading s) (activeIndex s)
    (isFocused s) (debounceTimer s) v (clock s) (timers s) (nextTimer s) (nextCtrl s) (aborted s)
    (inflight s) (network s) (console s).
Definition set_clock (v : Z) (s : State) : State :=
  mkState (selectedUser s) (searchQuery s) (suggestions s) (isOpen s) (isLoading s) (activeIndex s)
    (isFocused s) (debounceTimer s) (abortCtrl s) v (timers s) (nextTimer s) (nextCtrl s) (aborted s)
    (inflight s) (network s) (console s).
Definition set_timers (v : list Timer) (s : State) : State :=
  mkState (selectedUser s) (searchQuery s) (suggestions s) (isOpen s) (isLoading s) (activeIndex s)
    (isFocused s) (debounceTimer s) (abortCtrl s) (clock s) v (nextTimer s) (nextCtrl s) (aborted s)
    (inflight s) (network s) (console s).
Definition set_nextTimer (v : nat) (s : State) : State :=
  mkState (selectedUser s) (searchQuery s) (suggestions s) (isOpen s) (isLoading s) (activeIndex s)
    (isFocused s) (debounceTimer s) (abortCtrl s) (clock s) (timers s) v (nextCtrl s) (aborted s)
    (inflight s) (network s) (console s).
Definition set_nextCtrl (v : nat) (s : State) : State :=
  mkState (selectedUser s) (searchQuery s) (suggestions s) (isOpen s) (isLoading s) (activeIndex s)
    (isFocused s) (debounceTimer s) (abortCtrl s) (clock s) (timers s) (nextTimer s) v (aborted s)
    (inflight s) (network s) (console s).
Definition set_aborted (v : list nat) (s : State) : State :=
  mkState (selectedUser s) (searchQuery s) (suggestions s) (isOpen s) (isLoading s) (activeIndex s)
    (isFocused s) (debounceTimer s) (abortCtrl s) (clock s) (timers s) (nextTimer s) (nextCtrl s) v
    (inflight s) (network s) (console s).
Definition set_inflight (v : list Request) (s : State) : State :=
  mkState (selectedUser s) (searchQuery s) (suggestions s) (isOpen s) (isLoading s) (activeIndex s)
    (isFocused s) (debounceTimer s) (abortCtrl s) (clock s) (timers s) (nextTimer s) (nextCtrl s)
    (aborted s) v (network s) (console s).
Definition set_network (v : list string) (s : State) : State :=
  mkState (selectedUser s) (searchQuery s) (suggestions s) (isOpen s) (isLoading s) (activeIndex s)
    (isFocused s) (debounceTimer s) (abortCtrl s) (clock s) (timers s) (nextTimer s) (nextCtrl s)
    (aborted s) (inflight s) v (console s).
Definition set_console (v : list JsError) (s : State) : State :=
  mkState (selectedUser s) (searchQuery s) (suggestions s) (isOpen s) (isLoading s) (activeIndex s)
    (isFocused s) (debounceTimer s) (abortCtrl s) (clock s) (timers s) (nextTimer s) (nextCtrl s)
    (aborted s) (inflight s) (network s) v.

(** The component as mounted: lines 5-12 and 23-24.  Timer handles are
    positive numbers, so that [if (debounceTimer)] holds for every
    handle. *)
Definition init : State :=
  mkState JUndefined "" (JArr []) false false (-1) false None None 0 [] 1 0 [] [] [] [].

(* ------------------------------------------------------------------ *)
(** ** Browser services *)

(** [setTimeout(cb, delay)]: the new timer goes behind every pending
    timer that is due no later. *)
Fixpoint enqueue (t : Timer) (ts : list Timer) : list Timer :=
  match ts with
  | [] => [t]
  | t' :: rest => if tm_due t' <=? tm_due t then t' :: enqueue t rest else t :: ts
  end.

Definition setTimeout (cb : Callback) (delay : Z) (s : State) : nat * State :=
  let id := nextTimer s in
  (id, set_nextTimer (S id) (set_timers (enqueue (mkTimer id (clock s + delay) cb) (timers s)) s)).

Definition clearTimeout (id : nat) (s : State) : State :=
  set_timers (filter (fun t => negb (Nat.eqb (tm_id t) id)) (timers s)) s.

(** [new AbortController()]. *)
Definition newAbortController (s : State) : nat * State :=
  (nextCtrl s, set_nextCtrl (S (nextCtrl s)) s).

(** [ctrl.abort()]. *)
Definition abort (ctrl : nat) (s : State) : State := set_aborted (ctrl :: aborted s) s.

Definition signal_aborted (ctrl : nat) (s : State) : bool := existsb (Nat.eqb ctrl) (aborted s).

Definition users_url (query : string) : string :=
  ("https://apimocker.com/users/search?q=" ++ query)%string.

(** [fetch(url, { signal })]: the call is recorded and [fetchUsers] is
    parked at its first [await]. *)
Definition fetch (url : string) (ctrl : nat) (s : State) : State :=
  set_inflight (inflight s ++ [mkRequest ctrl url AwaitFetch]) (set_network (network s ++ [url]) s).

Definition console_error (e : JsError) (s : State) : State :=
  set_console (console s ++ [e]) s.

(* ================================================================== *)
(** * The handlers *)
(* ================================================================== *)

(** ** [fetchUsers], lines 40-76 *)

(** Lines 41-55: what runs before the first [await]. *)
Definition fetchUsers (query : string) (s : State) : State :=
  let s := match abortCtrl s with Some c => abort c s | None => s end in
  let (c, s) := newAbortController s in
  let s := set_abortCtrl (Some c) s in
  if negb (truthy (JStr (trim query))) then
    set_isOpen false (set_suggestions (JArr []) s)
  else
    let s := set_isLoading true s in
    fetch (users_url query) c s.

(** Lines 68-72. *)
Definition fetchUsers_catch (e : JsError) (s : State) : State :=
  if negb (String.eqb (err_name e) "AbortError") then
    set_suggestions (JArr []) (console_error e s)
  else s.

(** Lines 73-75. *)
Definition fetchUsers_finally (s : State) : State := set_isLoading false s.

Definition fetchUsers_throw (e : JsError) (s : State) : State :=
  fetchUsers_finally (fetchUsers_catch e s).

(** Lines 59-67, once [res.json()] has delivered [data]. *)
Definition fetchUsers_data (data : JsVal) (s : State) : State :=
  match getProp data "results" with
  | None => fetchUsers_throw (TypeError "Cannot read properties of null") s
  | Some results =>
      let s := set_suggestions (or_else (or_else results data) (JArr [])) s in
      match getProp (suggestions s) "length" with
      | None => fetchUsers_throw (TypeError "Cannot read properties of null") s
      | Some n =>
          fetchUsers_finally
            (if truthy n then set_activeIndex (-1) (set_isOpen true s)
             else set_isOpen false s)
      end
  end.

(** How the network settles the promise a call is parked at. *)
Inductive Settlement : Type :=
  | Rejects (e : JsError)      (* either promise rejects *)
  | Responds (ok : bool)       (* [fetch] fulfils with a response *)
  | Parses (data : JsVal).     (* [res.json()] fulfils *)

(** Lines 53-59: [fetchUsers] resumes. *)
Definition fetchUsers_resume (r : Request) (o : Settlement) (s : State) : State :=
  match req_phase r, o with
  | _, Rejects e => fetchUsers_throw e s
  | AwaitFetch, Responds ok =>
      if negb ok then fetchUsers_throw (mkError "Error" "API Error") s
      else set_inflight (inflight s ++ [mkRequest (req_signal r) (req_url r) AwaitJson]) s
  | AwaitJson, Parses data => fetchUsers_data data s
  | _, _ => set_inflight (inflight s ++ [r]) s
  end.

(** ** [onInput], lines 78-85.  [text] is [target.value]. *)
Definition onInput (text : string) (s : State) : State :=
  let s := set_searchQuery text s in
  let s := match debounceTimer s with Some id => clearTimeout id s | None => s end in
  let (id, s) := setTimeout CbFetch 300 s in
  set_debounceTimer (Some id) s.

(** ** [handleFocus], lines 91-97 *)
Definition handleFocus (s : State) : State :=
  let s := set_isFocused true s in
  if truthy (JStr (searchQuery s)) then
    match getProp (suggestions s) "length" with
    | Some n => if truthy n then set_isOpen true s else s
    | None => s
    end
  else s.

(** ** [handleBlur], lines 99-104 *)
Definition handleBlur (s : State) : State := snd (setTimeout CbBlur 200 s).

(** ** [selectItem], lines 106-111 *)
Definition selectItem (user : JsVal) (s : State) : State :=
  set_isOpen false (set_suggestions (JArr []) (set_searchQuery "" (set_selectedUser user s))).

(** ** [clearSelection], lines 113-119.  The [focus()] of the next tick
    reaches the component as a focus event. *)
Definition clearSelection (s : State) : State := set_selectedUser JNull s.

(** ** [onKeydown], lines 121-151.  A [TypeError] of a property read
    ends the handler where it stands. *)
Definition onKeydown (key : string) (s : State) : State :=
  if negb (isOpen s) then s
  else if String.eqb key "ArrowDown" then
    match getProp (suggestions s) "length" with
    | Some n => if lt_pred (activeIndex s) n then set_activeIndex (activeIndex s + 1) s else s
    | None => s
    end
  else if String.eqb key "ArrowUp" then
    if activeIndex s >? 0 then set_activeIndex (activeIndex s - 1) s else s
  else if String.eqb key "Enter" && (activeIndex s >=? 0) then
    match getIndex (suggestions s) (activeIndex s) with
    | Some user => selectItem user s
    | None => s
    end
  else if String.eqb key "Escape" then
    handleBlur (set_isOpen false s)    (* [blur()] raises the blur event *)
  else s.

(** ** [onUnmounted], lines 164-166 *)
Definition onUnmounted (s : State) : State :=
  match debounceTimer s with Some id => clearTimeout id s | None => s end.

(* ================================================================== *)
(** * The event loop *)
(* ================================================================== *)

(** The callbacks of lines 84 and 100-103.  [target.value] is read when
    the timer fires; the input's value is bound to [searchQuery]
    (line 219) and [onInput] copies it there, so it is [searchQuery]. *)
Definition runCallback (cb : Callback) (s : State) : State :=
  match cb with
  | CbFetch => fetchUsers (searchQuery s) s
  | CbBlur => set_isOpen false (set_isFocused false s)
  end.

Fixpoint fire (due : list Timer) (s : State) : State :=
  match due with
  | [] => s
  | t :: rest => fire rest (runCallback (tm_cb t) s)
  end.

Definition is_due (limit : Z) (t : Timer) : bool := tm_due t <=? limit.

(** [ms] milliseconds pass with no other event: the timers due by then
    fire in order.  Neither callback sets or clears a timer, so the due
    ones are taken out of the queue in one go. *)
Definition elapse (ms : Z) (s : State) : State :=
  if ms <? 0 then s
  else
    let limit := clock s + ms in
    let due := filter (is_due limit) (timers s) in
    let later := filter (fun t => negb (is_due limit t)) (timers s) in
    set_clock limit (fire due (set_timers later s)).

Definition find_request (ctrl : nat) (s : State) : option Request :=
  find (fun r => Nat.eqb (req_signal r) ctrl) (inflight s).

Definition drop_request (ctrl : nat) (s : State) : State :=
  set_inflight (filter (fun r => negb (Nat.eqb (req_signal r) ctrl)) (inflight s)) s.

(** The promise awaited by the call that holds the signal of [ctrl] is
    settled.  Once the signal is aborted the browser rejects it with an
    [AbortError], whatever the network delivers.  The browser does so
    as soon as the aborting handler returns; here the rejection may also
    arrive later, which includes that schedule. *)
Definition settle (ctrl : nat) (o : Settlement) (s : State) : State :=
  match find_request ctrl s with
  | None => s
  | Some r =>
      let o := if signal_aborted ctrl s then Rejects AbortError else o in
      fetchUsers_resume r o (drop_request ctrl s)
  end.

(** What the template lets through: the input is [disabled] while
    [selectedUser] is set (line 225), the dropdown exists while
    [isOpen && !selectedUser] (line 263) with one row per element of
    [suggestions] (line 266), the tag and its button while
    [selectedUser] is set (line 200).  Rows are modelled for arrays. *)
Definition inputEnabled (s : State) : bool := negb (truthy (selectedUser s)).
Definition dropdownShown (s : State) : bool := isOpen s && negb (truthy (selectedUser s)).
Definition rows (s : State) : list JsVal :=
  match suggestions s with JArr items => items | _ => [] end.

Inductive Event : Type :=
  | Input (text : string)          (* the user edits the text *)
  | Keydown (key : string)
  | Focus
  | Blur
  | MouseDown (idx : nat)          (* line 270 *)
  | MouseEnter (idx : nat)         (* line 271 *)
  | ClickClear                     (* line 202 *)
  | ModelUpdate (v : JsVal)        (* the host writes the bound value *)
  | Elapse (ms : Z)
  | Settle (ctrl : nat) (o : Settlement)
  | Unmount.

Definition step (s : State) (ev : Event) : State :=
  match ev with
  | Input text => if inputEnabled s then onInput text s else s
  | Keydown key => if inputEnabled s then onKeydown key s else s
  | Focus => if inputEnabled s then handleFocus s else s
  | Blur => handleBlur s
  | MouseDown idx =>
      if dropdownShown s then
        match nth_error (rows s) idx with
        | Some u => selectItem u s
        | None => s
        end
      else s
  | MouseEnter idx =>
      if dropdownShown s then
        match nth_error (rows s) idx with
        | Some _ => set_activeIndex (Z.of_nat idx) s
        | None => s
        end
      else s
  | ClickClear => if truthy (selectedUser s) then clearSelection s else s
  | ModelUpdate v => set_selectedUser v s
  | Elapse ms => elapse ms s
  | Settle ctrl o => settle ctrl o s
  | Unmount => onUnmounted s
  end.

Definition run (evs : list Event) (s : State) : State := fold_left step evs s.

(** Candidates used in the examples. *)
Definition alice : JsVal := JObj [("id", JNum 1); ("name", JStr "Alice")].
Definition alan : JsVal := JObj [("id", JNum 2); ("name", JStr "Alan")].

(* ================================================================== *)
(** * Predicates used in the statements *)
(* ================================================================== *)

(** [!query.trim()] is false. *)
Definition nonblank (q : string) : bool := truthy (JStr (trim q)).

(** The controllers whose signals the suspended calls hold. *)
Definition signals (s : State) : list nat := map req_signal (inflight s).

(** Every suspended call either holds the signal of the current
    controller or a signal that is already aborted. *)
Definition stale_aborted (s : State) : Prop :=
  forall c, In c (signals s) -> abortCtrl s <> Some c -> In c (aborted s).

(** The handlers of the user's events leave requests and controllers
    alone: only a debounce timer reaches [fetchUsers]. *)
Definition same_requests (s s' : State) : Prop :=
  inflight s' = inflight s /\ abortCtrl s' = abortCtrl s /\ aborted s' = aborted s.

Definition isFetchTimer (t : Timer) : bool :=
  match tm_cb t with CbFetch => true | CbBlur => false end.

Definition fetchTimers (s : State) : list Timer := filter isFetchTimer (timers s).

(** A pending timer that will call [fetchUsers] is the one whose handle
    [debounceTimer] holds. *)
Definition debounce_owned (s : State) : Prop :=
  forall t, In t (timers s) -> tm_cb t = CbFetch -> debounceTimer s = Some (tm_id t).

(** [onInput] has just run with [text]: one timer will call
    [fetchUsers], 300 ms from now; [base] are the network calls so far. *)
Definition armed (s : State) (text : string) (base : list string) : Prop :=
  searchQuery s = text /\ network s = base /\
  exists id, fetchTimers s = [mkTimer id (clock s + 300) CbFetch] /\
             debounceTimer s = Some id.

(** The dropdown is cleared and closed. *)
Definition cleared (s : State) : Prop := suggestions s = JArr [] /\ isOpen s = false.

(** A burst of keystrokes: [first] now, then each [(gap, text)] of
    [rest] arrives [gap] ms after the keystroke before it. *)
Definition keystroke (s : State) (g : Z * string) : State := onInput (snd g) (elapse (fst g) s).

Definition burst (first : string) (rest : list (Z * string)) (s : State) : State :=
  fold_left keystroke rest (onInput first s).

Definition final_text (first : string) (rest : list (Z * string)) : string :=
  last (map snd rest) first.

(** The network calls [fetchUsers query] makes. *)
Definition calls (query : string) : list string :=
  if nonblank query then [users_url query] else [].

Definition isArray (v : JsVal) : bool :=
  match v with JArr _ => true | _ => false end.

(** The normalisation of a payload in the words of the specification:
    the nested field if present and non-null, else the payload when it
    is a sequence, else the empty sequence. *)
Definition normalize_spec (data : JsVal) : JsVal :=
  match getProp data "results" with
  | Some JUndefined | Some JNull | None => if isArray data then data else JArr []
  | Some results => results
  end.

(** The payloads of the lookup service's interface: [Candidate[]] or
    [{ results: Candidate[] }]. *)
Definition conforms (data : JsVal) : bool :=
  match data with
  | JArr _ => true
  | JObj members => isArray (lookup "results" members)
  | _ => false
  end.

Definition event_conforms (ev : Event) : Prop :=
  match ev with
  | Settle _ (Parses data) => conforms data = true
  | _ => True
  end.

(** [suggestions] is a list, [activeIndex] is at least -1, and it is
    below the length of the list when the list is not empty. *)
Definition index_in_range (s : State) : Prop :=
  -1 <= activeIndex s /\
  exists items, suggestions s = JArr items /\
    (items <> [] -> activeIndex s <= Z.of_nat (List.length items) - 1).

(** The bounds of the specification. *)
Definition within_bounds (s : State) : Prop :=
  -1 <= activeIndex s <= Z.of_nat (List.length (rows s)) - 1.

Definition isArrow (key : string) : Prop := key = "ArrowDown" \/ key = "ArrowUp".

Definition navigate (keys : list string) (s : State) : State :=
  fold_left (fun s key => onKeydown key s) keys s.

(** The dropdown shows two candidates for "a". *)
Definition two_candidates : list Event :=
  [Input "a"; Elapse 300; Settle 0%nat (Responds true);
   Settle 0%nat (Parses (JArr [alice; alan]))].

(* ================================================================== *)
(** * Further predicates *)
(* ================================================================== *)

(** Every code unit of the string is white space. *)
Fixpoint all_whitespace (s : string) : bool :=
  match s with
  | EmptyString => true
  | String c rest => isWhiteSpace c && all_whitespace rest
  end.

(** A URL the component may pass to [fetch]: the search URL of a query
    with a code unit that is not white space. *)
Definition search_url (url : string) : Prop :=
  exists q, url = users_url q /\ all_whitespace q = false.

(** The suspended calls whose signal is not aborted. *)
Definition live (s : State) : list Request :=
  filter (fun r => negb (signal_aborted (req_signal r) s)) (inflight s).

(** Controllers are handed out once: the signals in flight are
    distinct and older than the next controller. *)
Definition fresh_signals (s : State) : Prop :=
  NoDup (signals s) /\ forall c, In c (signals s) -> (c < nextCtrl s)%nat.

(** The list a payload of the service's interface carries. *)
Definition payload_items (data : JsVal) : list JsVal :=
  match data with
  | JArr items => items
  | JObj members => match lookup "results" members with JArr items => items | _ => [] end
  | _ => []
  end.

(** A pending debounce timer is the one [debounceTimer] holds and fires
    within 300 ms. *)
Definition debounce_pending (s : State) : Prop :=
  forall t, In t (timers s) -> tm_cb t = CbFetch ->
    debounceTimer s = Some (tm_id t) /\ clock s < tm_due t <= clock s + 300.

(** Events that leave the bound value alone. *)
Definition keeps_selection (ev : Event) : Prop :=
  match ev with
  | ClickClear | ModelUpdate _ => False
  | _ => True
  end.

(** At most one debounce timer is pending; it is the one
    [debounceTimer] holds and it fires within 300 ms. *)
Definition one_debounce (s : State) : Prop :=
  (List.length (fetchTimers s) <= 1)%nat /\
  forall t, In t (fetchTimers s) ->
    debounceTimer s = Some (tm_id t) /\ clock s < tm_due t <= clock s + 300.



(* ================================================================== *)
(** * A scenario of the specification *)
(* ================================================================== *)

(** The scenario of the specification: "al" is typed, the service
    answers with two candidates, ArrowDown twice, Enter. *)
Example scenario_commit :
  let s := run [Input "al"; Elapse 300; Settle 0 (Responds true);
                Settle 0 (Parses (JObj [("results", JArr [alice; alan])]));
                Keydown "ArrowDown"; Keydown "ArrowDown"; Keydown "Enter"] init in
  selectedUser s = alan /\ isOpen s = false /\ searchQuery s = "" /\
  suggestions s = JArr [] /\ network s = [users_url "al"].
Proof. vm_compute. repeat split. Qed.

(* ================================================================== *)
(** * Proof infrastructure *)
(* ================================================================== *)

Ltac break_match :=
  match goal with
  | |- context [match ?x with _ => _ end] => destruct x eqn:?
  end.

Ltac unfold_handlers :=
  unfold step, settle, fetchUsers_resume, fetchUsers_data, fetchUsers_throw,
    fetchUsers_finally, fetchUsers_catch, fetchUsers, onInput, onKeydown, handleFocus,
    handleBlur, selectItem, clearSelection, onUnmounted, runCallback, drop_request,
    setTimeout, clearTimeout, newAbortController, abort, fetch, console_error in *.

(** Decides what a handler does to a field it only copies. *)
Ltac frame := intros; unfold_handlers; repeat (simpl; try break_match); simpl; auto.

Lemma run_app (evs1 evs2 : list Event) (s : State) :
  run (evs1 ++ evs2) s = run evs2 (run evs1 s).
Proof. apply fold_left_app. Qed.

(** An invariant of every step holds along every run. *)
Lemma run_preserves (P : State -> Prop) :
  (forall s ev, P s -> P (step s ev)) ->
  forall evs s, P s -> P (run evs s).
Proof.
  intros Hstep evs. induction evs as [|ev evs IH]; intros s Hs; simpl; auto.
Qed.

Lemma fire_preserves (P : State -> Prop) :
  (forall cb s, P s -> P (runCallback cb s)) ->
  forall due s, P s -> P (fire due s).
Proof.
  intros Hcb due. induction due as [|t due IH]; intros s Hs; simpl; auto.
Qed.

(** [elapse] is the due callbacks between two changes of the platform
    fields [timers] and [clock]. *)
Lemma elapse_preserves (P : State -> Prop) :
  (forall ts s, P s -> P (set_timers ts s)) ->
  (forall t s, P s -> P (set_clock t s)) ->
  (forall cb s, P s -> P (runCallback cb s)) ->
  forall ms s, P s -> P (elapse ms s).
Proof.
  intros Ht Hc Hcb ms s Hs. unfold elapse. destruct (ms <? 0); auto.
  apply Hc, fire_preserves; auto.
Qed.

(* ------------------------------------------------------------------ *)
(** ** Requests and their controllers *)


Lemma stale_aborted_frame (s s' : State) :
  incl (signals s') (signals s) -> abortCtrl s' = abortCtrl s ->
  incl (aborted s) (aborted s') ->
  stale_aborted s -> stale_aborted s'.
Proof.
  intros Hsig Hctl Hab H c Hc Hne. apply Hab, H; [apply Hsig, Hc | congruence].
Qed.

Lemma signals_filter (f : Request -> bool) (rs : list Request) :
  incl (map req_signal (filter f rs)) (map req_signal rs).
Proof.
  intros c Hc. apply in_map_iff in Hc as [r [<- Hr]]. apply filter_In in Hr as [Hr _].
  now apply in_map.
Qed.

Lemma find_request_signal (c : nat) (s : State) (r : Request) :
  find_request c s = Some r -> req_signal r = c /\ In c (signals s).
Proof.
  unfold find_request. intros H. apply find_some in H as [Hin Heq].
  apply Nat.eqb_eq in Heq. split; auto. subst c. now apply in_map.
Qed.


Lemma fetchUsers_abortCtrl (q : string) (s : State) :
  abortCtrl (fetchUsers q s) = Some (nextCtrl s).
Proof. unfold fetchUsers. destruct (abortCtrl s), (truthy (JStr (trim q))); reflexivity. Qed.

Lemma fetchUsers_aborted (q : string) (s : State) :
  aborted (fetchUsers q s) =
  match abortCtrl s with Some c => c :: aborted s | None => aborted s end.
Proof. unfold fetchUsers. destruct (abortCtrl s), (truthy (JStr (trim q))); reflexivity. Qed.

Lemma fetchUsers_inflight (q : string) (s : State) :
  inflight (fetchUsers q s) =
  if nonblank q then inflight s ++ [mkRequest (nextCtrl s) (users_url q) AwaitFetch]
  else inflight s.
Proof.
  unfold fetchUsers, nonblank. destruct (abortCtrl s), (truthy (JStr (trim q))); reflexivity.
Qed.

Lemma fetchUsers_network (q : string) (s : State) :
  network (fetchUsers q s) = network s ++ calls q.
Proof.
  unfold fetchUsers, calls, nonblank.
  destruct (abortCtrl s), (truthy (JStr (trim q))); simpl; auto using app_nil_r.
Qed.

Lemma fetchUsers_stale_aborted (q : string) (s : State) :
  stale_aborted s -> stale_aborted (fetchUsers q s).
Proof.
  intros H c Hc Hne. rewrite fetchUsers_abortCtrl in Hne.
  rewrite fetchUsers_aborted. unfold signals in Hc. rewrite fetchUsers_inflight in Hc.
  assert (Hold : In c (signals s)).
  { unfold signals. destruct (nonblank q); auto.
    rewrite map_app in Hc. apply in_app_or in Hc as [Hc | [Hc | []]]; auto.
    simpl in Hc. congruence. }
  destruct (abortCtrl s) as [c0|] eqn:Hc0.
  - destruct (Nat.eq_dec c0 c) as [->|Hd]; [now left|].
    right. apply H; auto. congruence.
  - apply H; auto. congruence.
Qed.

Lemma settle_signals (c : nat) (o : Settlement) (s : State) :
  incl (signals (settle c o s)) (signals s).
Proof.
  unfold settle. destruct (find_request c s) as [r|] eqn:Hr; [|apply incl_refl].
  apply find_request_signal in Hr as [Hrc Hin].
  assert (Hd : incl (signals (drop_request c s)) (signals s)) by apply signals_filter.
  unfold signals in *.
  unfold_handlers; repeat (simpl; try break_match); simpl; auto;
    rewrite ?map_app; simpl;
    intros x Hx; try (apply in_app_or in Hx as [Hx | [Hx | []]]); subst; auto.
Qed.

Lemma settle_abortCtrl (c : nat) (o : Settlement) (s : State) :
  abortCtrl (settle c o s) = abortCtrl s.
Proof. frame. Qed.

Lemma settle_network (c : nat) (o : Settlement) (s : State) :
  network (settle c o s) = network s.
Proof. frame. Qed.

Lemma settle_aborted (c : nat) (o : Settlement) (s : State) :
  aborted (settle c o s) = aborted s.
Proof. frame. Qed.


Lemma same_requests_ui (s : State) (ev : Event) :
  match ev with Elapse _ | Settle _ _ => False | _ => True end ->
  same_requests s (step s ev).
Proof.
  unfold same_requests. destruct ev; intros []; repeat split; frame.
Qed.

Lemma stale_aborted_same (s s' : State) :
  same_requests s s' -> stale_aborted s -> stale_aborted s'.
Proof.
  intros (Hi & Hc & Ha). apply stale_aborted_frame; auto.
  - unfold signals. rewrite Hi. apply incl_refl.
  - rewrite Ha. apply incl_refl.
Qed.

Lemma runCallback_stale_aborted (cb : Callback) (s : State) :
  stale_aborted s -> stale_aborted (runCallback cb s).
Proof.
  destruct cb; simpl; [apply fetchUsers_stale_aborted | auto].
Qed.

Lemma step_stale_aborted (s : State) (ev : Event) :
  stale_aborted s -> stale_aborted (step s ev).
Proof.
  intros H.
  destruct ev;
    try (apply stale_aborted_same with s; [apply same_requests_ui; exact I | exact H]).
  - simpl. apply elapse_preserves; auto using runCallback_stale_aborted.
  - simpl. apply stale_aborted_frame with s; auto using settle_signals, settle_abortCtrl.
    rewrite settle_aborted. apply incl_refl.
Qed.

Lemma init_stale_aborted : stale_aborted init.
Proof. intros c []. Qed.

Lemma reachable_stale_aborted (evs : list Event) : stale_aborted (run evs init).
Proof. apply run_preserves; auto using step_stale_aborted, init_stale_aborted. Qed.

(** Aborting is for good. *)
Lemma runCallback_aborted_mono (c : nat) (cb : Callback) (s : State) :
  In c (aborted s) -> In c (aborted (runCallback cb s)).
Proof.
  destruct cb; simpl; auto. rewrite fetchUsers_aborted.
  destruct (abortCtrl s); simpl; auto.
Qed.

Lemma step_aborted_mono (c : nat) (s : State) (ev : Event) :
  In c (aborted s) -> In c (aborted (step s ev)).
Proof.
  intros H. destruct ev;
    try (match goal with
         | |- In _ (aborted (step ?s ?e)) =>
             destruct (same_requests_ui s e I) as (_ & _ & ->); exact H
         end).
  - simpl. apply (elapse_preserves (fun s => In c (aborted s)));
      auto using runCallback_aborted_mono.
  - simpl. now rewrite settle_aborted.
Qed.

Lemma in_aborted_signal (c : nat) (s : State) :
  In c (aborted s) -> signal_aborted c s = true.
Proof.
  intros H. unfold signal_aborted. apply existsb_exists. exists c. split; auto.
  apply Nat.eqb_refl.
Qed.

(** The continuation of an aborted call: [catch] skips its body and
    [finally] clears the loading flag, nothing else. *)
Lemma settle_aborted_signal (c : nat) (o : Settlement) (s : State) :
  In c (aborted s) ->
  suggestions (settle c o s) = suggestions s /\
  isOpen (settle c o s) = isOpen s /\
  activeIndex (settle c o s) = activeIndex s.
Proof.
  intros H. unfold settle. destruct (find_request c s) as [r|]; auto.
  rewrite (in_aborted_signal _ _ H). destruct r as [sg url []]; simpl; auto.
Qed.

Lemma stale_settle_silent (c : nat) (o : Settlement) (s : State) :
  stale_aborted s -> abortCtrl s <> Some c ->
  suggestions (settle c o s) = suggestions s /\
  isOpen (settle c o s) = isOpen s /\
  activeIndex (settle c o s) = activeIndex s.
Proof.
  intros Hinv Hne. destruct (find_request c s) as [r|] eqn:Hr.
  - apply find_request_signal in Hr as [_ Hin]. apply settle_aborted_signal, Hinv; auto.
  - unfold settle. rewrite Hr. auto.
Qed.

(* ================================================================== *)
(** * C1: a superseded request never touches the suggestion list *)
(* ================================================================== *)

Lemma fetchUsers_aborts_inflight (q : string) (c : nat) (s : State) :
  stale_aborted s -> In c (signals s) -> In c (aborted (fetchUsers q s)).
Proof.
  intros Hinv Hin. rewrite fetchUsers_aborted.
  destruct (abortCtrl s) as [c0|] eqn:Hc0.
  - destruct (Nat.eq_dec c0 c) as [->|Hd]; [now left|].
    right. apply Hinv; auto. congruence.
  - apply Hinv; auto. congruence.
Qed.

Lemma abortCtrl_dec (s : State) (c : nat) : {abortCtrl s = Some c} + {abortCtrl s <> Some c}.
Proof. decide equality. apply Nat.eq_dec. Qed.

(** C1.  Request A (holding the signal of controller [c]) is in flight
    after the events [evs1]; the debounce timer then starts request B by
    calling [fetchUsers q]; the events [evs2] follow.  Whenever and
    however A is settled after that, [suggestions], [isOpen] and
    [activeIndex] stay as they are.  And in every such state a settlement
    that does change [suggestions] belongs to the controller of the most
    recent call of [fetchUsers]. *)
Theorem superseded_request_is_silent
    (evs1 : list Event) (q : string) (evs2 : list Event) (c : nat) (o : Settlement) :
  let sA := run evs1 init in
  let s := run evs2 (fetchUsers q sA) in
  let s' := step s (Settle c o) in
  In c (signals sA) ->
  (suggestions s' = suggestions s /\ isOpen s' = isOpen s /\
   activeIndex s' = activeIndex s) /\
  (forall c' o',
     suggestions (step s (Settle c' o')) <> suggestions s -> abortCtrl s = Some c').
Proof.
  intros sA s s' Hin. split.
  - apply settle_aborted_signal. subst s.
    apply (run_preserves (fun s => In c (aborted s))).
    + intros; now apply step_aborted_mono.
    + apply fetchUsers_aborts_inflight; auto. apply reachable_stale_aborted.
  - intros c' o' Hchg.
    assert (Hinv : stale_aborted s).
    { subst s. apply run_preserves; [apply step_stale_aborted|].
      apply fetchUsers_stale_aborted, reachable_stale_aborted. }
    destruct (abortCtrl_dec s c') as [Heq|Hne]; auto.
    exfalso. apply Hchg. simpl. now apply stale_settle_silent.
Qed.

(** "a" is fetched, "ab" supersedes it, and the first lookup then fails
    on the network: the failure is not applied. *)
Lemma superseded_request_is_silent_witness :
  let sA := run [Input "a"; Elapse 300] init in
  let s := run [] (fetchUsers "ab" sA) in
  let s' := step s (Settle 0%nat (Rejects (TypeError "Failed to fetch"))) in
  In 0%nat (signals sA) /\
  (suggestions s' = suggestions s /\ isOpen s' = isOpen s /\
   activeIndex s' = activeIndex s).
Proof.
  split.
  - vm_compute. now left.
  - apply (superseded_request_is_silent [Input "a"; Elapse 300] "ab" [] 0%nat
             (Rejects (TypeError "Failed to fetch"))).
    vm_compute. now left.
Defined.

(* ================================================================== *)
(** * Timers *)
(* ================================================================== *)

Lemma In_enqueue (t t0 : Timer) (ts : list Timer) :
  In t (enqueue t0 ts) <-> t = t0 \/ In t ts.
Proof.
  induction ts as [|t' ts IH]; simpl.
  - intuition.
  - destruct (tm_due t' <=? tm_due t0); simpl; rewrite ?IH; intuition.
Qed.

Lemma filter_enqueue_other (p : Timer -> bool) (t0 : Timer) (ts : list Timer) :
  p t0 = false -> filter p (enqueue t0 ts) = filter p ts.
Proof.
  intros H. induction ts as [|t' ts IH]; simpl.
  - now rewrite H.
  - destruct (tm_due t' <=? tm_due t0); simpl; [now rewrite IH | now rewrite H].
Qed.

Lemma filter_enqueue_only (p : Timer -> bool) (t0 : Timer) (ts : list Timer) :
  p t0 = true -> filter p ts = [] -> filter p (enqueue t0 ts) = [t0].
Proof.
  intros H. induction ts as [|t' ts IH]; simpl; intros Hnil.
  - now rewrite H.
  - destruct (p t') eqn:Hp; [discriminate|].
    destruct (tm_due t' <=? tm_due t0); simpl; rewrite ?Hp, ?H, ?Hnil; auto.
Qed.

Lemma filter_comm {A : Type} (f g : A -> bool) (l : list A) :
  filter f (filter g l) = filter g (filter f l).
Proof.
  induction l as [|a l IH]; simpl; auto.
  destruct (f a) eqn:Hf, (g a) eqn:Hg; simpl; rewrite ?Hf, ?Hg, IH; auto.
Qed.

Lemma filter_nil_iff {A : Type} (f : A -> bool) (l : list A) :
  filter f l = [] <-> forall a, In a l -> f a = false.
Proof.
  induction l as [|a l IH]; simpl.
  - intuition.
  - destruct (f a) eqn:Hf; split.
    + discriminate.
    + intros H. specialize (H a (or_introl eq_refl)). congruence.
    + intros Hn b [<-|Hb]; auto. now apply IH.
    + intros H. apply IH. auto.
Qed.

(** Neither callback touches the timer queue, the handle, the text or
    the bound value. *)
Lemma runCallback_frame (cb : Callback) (s : State) :
  timers (runCallback cb s) = timers s /\
  debounceTimer (runCallback cb s) = debounceTimer s /\
  searchQuery (runCallback cb s) = searchQuery s /\
  clock (runCallback cb s) = clock s.
Proof.
  destruct cb; simpl; auto. unfold fetchUsers.
  destruct (abortCtrl s), (truthy (JStr (trim (searchQuery s)))); simpl; auto.
Qed.

Lemma fire_frame (due : list Timer) (s : State) :
  timers (fire due s) = timers s /\
  debounceTimer (fire due s) = debounceTimer s /\
  searchQuery (fire due s) = searchQuery s /\
  clock (fire due s) = clock s.
Proof.
  revert s. induction due as [|t due IH]; intros s; simpl; auto.
  destruct (IH (runCallback (tm_cb t) s)) as (-> & -> & -> & ->).
  apply runCallback_frame.
Qed.

Lemma elapse_timers (ms : Z) (s : State) :
  0 <= ms ->
  timers (elapse ms s) = filter (fun t => negb (is_due (clock s + ms) t)) (timers s) /\
  debounceTimer (elapse ms s) = debounceTimer s /\
  searchQuery (elapse ms s) = searchQuery s /\
  clock (elapse ms s) = clock s + ms.
Proof.
  intros Hms. unfold elapse. destruct (ms <? 0) eqn:E; [lia|]. simpl.
  match goal with |- context [fire ?d ?s0] => destruct (fire_frame d s0) as (-> & -> & -> & _) end.
  auto.
Qed.

(** Callbacks of [handleBlur] make no network call. *)
Lemma fire_blur_network (due : list Timer) (s : State) :
  filter isFetchTimer due = [] -> network (fire due s) = network s.
Proof.
  revert s. induction due as [|t due IH]; intros s; simpl; auto.
  unfold isFetchTimer at 1. destruct (tm_cb t); [discriminate|].
  intros H. now rewrite IH.
Qed.

(** The one debounce timer among the due ones calls [fetchUsers] with
    the text of that moment. *)
Lemma fire_one_network (due : list Timer) (t : Timer) (s : State) :
  filter isFetchTimer due = [t] ->
  network (fire due s) = network s ++ calls (searchQuery s).
Proof.
  revert s. induction due as [|t' due IH]; intros s; simpl; [discriminate|].
  unfold isFetchTimer at 1. destruct (tm_cb t') eqn:Hcb; intros H.
  - inversion H. rewrite fire_blur_network by assumption. simpl.
    apply fetchUsers_network.
  - rewrite IH by assumption. reflexivity.
Qed.

Lemma armed_owned (s : State) (text : string) (base : list string) :
  armed s text base -> debounce_owned s.
Proof.
  intros (_ & _ & id & Hft & Hd) t Hin Hcb.
  assert (Ht : In t (fetchTimers s)).
  { apply filter_In. split; auto. unfold isFetchTimer. now rewrite Hcb. }
  rewrite Hft in Ht. destruct Ht as [<-|[]]. exact Hd.
Qed.

Lemma onInput_armed (text : string) (s : State) :
  debounce_owned s -> armed (onInput text s) text (network s).
Proof.
  intros Hown. unfold armed, fetchTimers, onInput, setTimeout, clearTimeout. simpl.
  destruct (debounceTimer s) as [old|] eqn:Hd; simpl;
    (split; [reflexivity|]; split; [reflexivity|];
     exists (nextTimer s); split; [|reflexivity];
     apply filter_enqueue_only; [reflexivity|]; apply filter_nil_iff; intros t Ht).
  - apply filter_In in Ht as [Ht Hne]. unfold isFetchTimer.
    destruct (tm_cb t) eqn:Hcb; auto.
    specialize (Hown t Ht Hcb). rewrite Hd in Hown. inversion Hown; subst.
    now rewrite Nat.eqb_refl in Hne.
  - unfold isFetchTimer. destruct (tm_cb t) eqn:Hcb; auto.
    specialize (Hown t Ht Hcb). congruence.
Qed.

(** Within the quiet period only [handleBlur] callbacks can be due. *)
Lemma armed_elapse_short (s : State) (text : string) (base : list string) (gap : Z) :
  armed s text base -> 0 <= gap < 300 ->
  debounce_owned (elapse gap s) /\ network (elapse gap s) = base.
Proof.
  intros Harm Hgap. pose proof (armed_owned _ _ _ Harm) as Hown.
  destruct Harm as (_ & Hnet & id & Hft & Hd).
  destruct (elapse_timers gap s) as (Ht & Hdt & _ & _); [lia|]. split.
  - intros t Hin Hcb. rewrite Hdt. rewrite Ht in Hin. apply filter_In in Hin as [Hin _].
    now apply Hown.
  - unfold elapse. destruct (gap <? 0) eqn:E; [lia|]. simpl.
    rewrite fire_blur_network; [exact Hnet|].
    rewrite filter_comm. simpl. fold (fetchTimers s). rewrite Hft. simpl.
    unfold is_due. simpl. destruct (clock s + 300 <=? clock s + gap) eqn:E'; auto. lia.
Qed.

(** Once the quiet period is over the debounce timer has fired. *)
Lemma armed_elapse_long (s : State) (text : string) (base : list string) (ms : Z) :
  armed s text base -> 300 <= ms ->
  network (elapse ms s) = base ++ calls text.
Proof.
  intros (Hq & Hnet & id & Hft & Hd) Hms.
  unfold elapse. destruct (ms <? 0) eqn:E; [lia|]. simpl.
  rewrite fire_one_network with (t := mkTimer id (clock s + 300) CbFetch).
  - simpl. now rewrite Hq, Hnet.
  - rewrite filter_comm. simpl. fold (fetchTimers s). rewrite Hft. simpl.
    unfold is_due. simpl. destruct (clock s + 300 <=? clock s + ms) eqn:E'; auto. lia.
Qed.

Lemma debounce_owned_frame (s s' : State) :
  (forall t, In t (timers s') -> In t (timers s) \/ tm_cb t = CbBlur) ->
  debounceTimer s' = debounceTimer s ->
  debounce_owned s -> debounce_owned s'.
Proof.
  intros Ht Hd Hown t Hin Hcb. rewrite Hd. destruct (Ht t Hin) as [H|H]; [auto | congruence].
Qed.

Lemma step_debounce_owned (s : State) (ev : Event) :
  debounce_owned s -> debounce_owned (step s ev).
Proof.
  intros Hown. destruct ev;
    try (apply debounce_owned_frame with s; [| | exact Hown];
         [ unfold_handlers; repeat (simpl; try break_match); simpl; intros t Ht;
           try (apply In_enqueue in Ht as [->|Ht]);
           try (apply filter_In in Ht as [Ht _]); auto
         | frame ]; fail).
  - simpl. destruct (inputEnabled s); auto.
    eapply armed_owned, onInput_armed, Hown.
  - simpl. unfold elapse. destruct (ms <? 0) eqn:E; auto.
    destruct (elapse_timers ms s) as (Ht & Hd & _); [lia|].
    unfold elapse in Ht, Hd. rewrite E in Ht, Hd.
    apply debounce_owned_frame with s; auto.
    intros t Hin. rewrite Ht in Hin. apply filter_In in Hin as [Hin _]. auto.
Qed.

Lemma reachable_debounce_owned (evs : list Event) : debounce_owned (run evs init).
Proof.
  apply run_preserves; [apply step_debounce_owned|]. intros t [].
Qed.

Lemma last_cons {A : Type} (a d : A) (l : list A) : last (a :: l) d = last l a.
Proof.
  revert a d. induction l as [|b l IH]; intros a d; auto.
  change (last (a :: b :: l) d) with (last (b :: l) d). now rewrite !IH.
Qed.

(** A burst leaves the controller armed with the text of its last
    keystroke, and has made no network call. *)
Lemma burst_armed (rest : list (Z * string)) (s : State) (text : string) (base : list string) :
  armed s text base ->
  Forall (fun g => 0 <= fst g < 300) rest ->
  armed (fold_left keystroke rest s) (last (map snd rest) text) base.
Proof.
  revert s text. induction rest as [|g rest IH]; intros s text Harm Hgaps; simpl; auto.
  inversion Hgaps as [|? ? Hg Hrest]; subst.
  change (armed (fold_left keystroke rest (keystroke s g))
            (last (snd g :: map snd rest) text) base).
  rewrite last_cons. apply IH; auto.
  destruct (armed_elapse_short _ _ _ _ Harm Hg) as [Hown Hnet].
  unfold keystroke. rewrite <- Hnet. now apply onInput_armed.
Qed.

(* ================================================================== *)
(** * C4: the debounce law *)
(* ================================================================== *)

(** As stated the law fails when the burst ends on a blank text: "a" is
    typed and deleted 100 ms later, and no network call is ever made. *)
Lemma debounce_law_blank_counterexample :
  let s := elapse 300 (burst "a" [(100, "")] init) in
  network s = [] /\ List.length (network s) <> 1%nat.
Proof. vm_compute. split; [reflexivity | discriminate]. Qed.

(** C4, amended.  From any state the component can reach, a burst of
    keystrokes, each less than 300 ms after the one before, followed by
    300 ms or more without a keystroke, calls [fetchUsers] once, with the
    text of the last keystroke: exactly one network call, for that text,
    when the text is not blank, and none when it is. *)
Theorem debounce_law
    (evs : list Event) (first : string) (rest : list (Z * string)) (ms : Z) :
  let s := run evs init in
  Forall (fun g => 0 <= fst g < 300) rest ->
  300 <= ms ->
  network (elapse ms (burst first rest s)) =
  network s ++ (if nonblank (final_text first rest)
                then [users_url (final_text first rest)] else []).
Proof.
  intros s Hgaps Hms. apply armed_elapse_long; auto.
  apply burst_armed; auto. apply onInput_armed, reachable_debounce_owned.
Qed.

(** "a", then "ab" 100 ms later: one fetch, for "ab". *)
Lemma debounce_law_witness :
  Forall (fun g => 0 <= fst g < 300) [(100, "ab")] /\ 300 <= 300 /\
  network (elapse 300 (burst "a" [(100, "ab")] (run [] init))) = [users_url "ab"].
Proof.
  assert (Hgaps : Forall (fun g : Z * string => 0 <= fst g < 300) [(100, "ab")]).
  { repeat constructor; simpl; lia. }
  split; [exact Hgaps|]. split; [lia|].
  apply (debounce_law [] "a" [(100, "ab")] 300 Hgaps). lia.
Defined.

(* ================================================================== *)
(** * C2 and C3: clearing the input *)
(* ================================================================== *)

Lemma runCallback_blank_network (cb : Callback) (s : State) :
  nonblank (searchQuery s) = false -> network (runCallback cb s) = network s.
Proof.
  intros Hb. destruct cb; simpl; auto.
  rewrite fetchUsers_network. unfold calls. rewrite Hb. apply app_nil_r.
Qed.

Lemma runCallback_blank_cleared (cb : Callback) (s : State) :
  nonblank (searchQuery s) = false -> cleared s -> cleared (runCallback cb s).
Proof.
  unfold cleared, nonblank. intros Hb [Hs Ho]. destruct cb; simpl; auto.
  unfold fetchUsers. rewrite Hb. destruct (abortCtrl s); simpl; auto.
Qed.

Lemma fetchUsers_blank_cleared (q : string) (s : State) :
  nonblank q = false -> cleared (fetchUsers q s).
Proof.
  unfold cleared, nonblank, fetchUsers. intros ->. destruct (abortCtrl s); simpl; auto.
Qed.

(** While the text is blank the due timers make no network call, and
    if one of them is a debounce timer the dropdown ends up cleared and
    closed. *)
Lemma fire_blank (due : list Timer) (s : State) :
  nonblank (searchQuery s) = false ->
  network (fire due s) = network s /\
  ((cleared s \/ exists t, In t due /\ tm_cb t = CbFetch) -> cleared (fire due s)).
Proof.
  revert s. induction due as [|t due IH]; intros s Hb; simpl.
  - split; auto. intros [H|(t & [] & _)]; auto.
  - destruct (runCallback_frame (tm_cb t) s) as (_ & _ & Hq & _).
    destruct (IH (runCallback (tm_cb t) s)) as [Hnet Hcl]; [now rewrite Hq|].
    split.
    + rewrite Hnet. now apply runCallback_blank_network.
    + intros [H|(t' & [<-|Hin] & Hcb)]; apply Hcl.
      * left. now apply runCallback_blank_cleared.
      * left. rewrite Hcb. simpl. now apply fetchUsers_blank_cleared.
      * right. eauto.
Qed.

Lemma fire_aborts (c : nat) (due : list Timer) (s : State) :
  (In c (aborted s) \/ (abortCtrl s = Some c /\ exists t, In t due /\ tm_cb t = CbFetch)) ->
  In c (aborted (fire due s)).
Proof.
  revert s. induction due as [|t due IH]; intros s; simpl.
  - intros [H|(_ & t & [] & _)]; auto.
  - intros [H|(Hc & t' & [<-|Hin] & Hcb)]; apply IH.
    + left. now apply runCallback_aborted_mono.
    + left. rewrite Hcb. simpl. rewrite fetchUsers_aborted, Hc. now left.
    + destruct (tm_cb t) eqn:Ecb.
      * left. simpl. rewrite fetchUsers_aborted, Hc. now left.
      * right. simpl. split; eauto.
Qed.

(** The timer [onInput] has set is among those due 300 ms later. *)
Lemma onInput_timer_due (text : string) (s : State) :
  let s1 := onInput text s in
  let t := mkTimer (nextTimer s) (clock s + 300) CbFetch in
  In t (timers s1) /\ In t (filter (is_due (clock s1 + 300)) (timers s1)) /\
  clock s1 = clock s.
Proof.
  assert (H : In (mkTimer (nextTimer s) (clock s + 300) CbFetch) (timers (onInput text s)) /\
              clock (onInput text s) = clock s).
  { unfold onInput, setTimeout, clearTimeout. simpl.
    destruct (debounceTimer s); simpl; split; auto; apply In_enqueue; now left. }
  destruct H as [Hin Hclk]. cbv zeta. repeat split; auto.
  apply filter_In. split; auto. unfold is_due. rewrite Hclk. simpl. lia.
Qed.

Lemma onInput_frame (text : string) (s : State) :
  let s1 := onInput text s in
  searchQuery s1 = text /\ suggestions s1 = suggestions s /\ isOpen s1 = isOpen s /\
  network s1 = network s /\ inflight s1 = inflight s /\ abortCtrl s1 = abortCtrl s /\
  aborted s1 = aborted s.
Proof.
  unfold onInput, setTimeout, clearTimeout. simpl.
  destruct (debounceTimer s); simpl; repeat split; auto.
Qed.

(** What 300 ms of quiet after [onInput ""] lead to. *)
Lemma empty_input_elapsed (s : State) :
  let s2 := elapse 300 (onInput "" s) in
  cleared s2 /\ network s2 = network s /\
  (forall c, abortCtrl s = Some c -> In c (aborted s2)).
Proof.
  destruct (onInput_frame "" s) as (Hq & Hs & Ho & Hn & Hi & Hc & Ha).
  destruct (onInput_timer_due "" s) as (_ & Hdue & _).
  cbv zeta. unfold elapse. change (300 <? 0) with false. cbv iota.
  set (s1 := onInput "" s) in *.
  set (due := filter (is_due (clock s1 + 300)) (timers s1)) in *.
  set (s0 := set_timers _ s1).
  assert (Hb : nonblank (searchQuery s0) = false).
  { change (searchQuery s0) with (searchQuery s1). now rewrite Hq. }
  destruct (fire_blank due s0 Hb) as [Hnet Hcl].
  assert (Hex : exists t, In t due /\ tm_cb t = CbFetch) by eauto.
  assert (Hcleared : cleared (fire due s0)) by auto.
  assert (Habort : forall c, abortCtrl s = Some c -> In c (aborted (fire due s0))).
  { intros c Hcc. apply fire_aborts. right. split; auto.
    change (abortCtrl s0) with (abortCtrl s1). congruence. }
  split; [exact Hcleared|]. split; [|exact Habort].
  change (network (fire due s0) = network s). rewrite Hnet.
  change (network s0) with (network s1). exact Hn.
Qed.

(** As stated C2 fails: with two candidates on display, emptying the
    input leaves them on display. *)
Lemma empty_input_not_synchronous :
  let s := run [Input "a"; Elapse 300; Settle 0%nat (Responds true);
                Settle 0%nat (Parses (JArr [alice; alan]))] init in
  suggestions (step s (Input "")) = JArr [alice; alan] /\
  isOpen (step s (Input "")) = true.
Proof. vm_compute. split; reflexivity. Qed.

(** C2, amended.  In every state, [onInput] with the empty string sets
    the query to the empty string at once and restarts the 300 ms
    debounce timer, leaving [suggestions] and [isOpen] as they were; when
    300 ms have passed with no other event, [suggestions] is empty and
    [isOpen] is false.  No network call is made on the way. *)
Theorem empty_input_clears_after_debounce (s : State) :
  let s1 := onInput "" s in
  let s2 := elapse 300 s1 in
  (searchQuery s1 = "" /\ suggestions s1 = suggestions s /\ isOpen s1 = isOpen s /\
   network s1 = network s /\
   In (mkTimer (nextTimer s) (clock s + 300) CbFetch) (timers s1)) /\
  (suggestions s2 = JArr [] /\ isOpen s2 = false /\ network s2 = network s).
Proof.
  destruct (onInput_frame "" s) as (Hq & Hs & Ho & Hn & _).
  destruct (onInput_timer_due "" s) as (Hin & _).
  destruct (empty_input_elapsed s) as ([Hs2 Ho2] & Hn2 & _).
  simpl. repeat split; auto.
Qed.

(** As stated C3 fails: "ab" is in flight, the input is emptied, and the
    response that arrives before the debounce timer fires is applied. *)
Lemma stale_response_applied_before_debounce :
  let s := run [Input "ab"; Elapse 300; Input "";
                Settle 0%nat (Responds true); Settle 0%nat (Parses (JArr [alice]))] init in
  searchQuery s = "" /\ suggestions s = JArr [alice] /\ isOpen s = true.
Proof. vm_compute. repeat split. Qed.

(** C3, amended.  A request is in flight for the current controller
    [c] and the input is emptied.  When the debounce timer of that
    keystroke has fired, 300 ms later, [c] is aborted, [suggestions] is
    empty and [isOpen] is false; the response of the request, whenever
    it then arrives, changes neither, and no network call has been made
    since the keystroke. *)
Theorem clearing_invalidates_after_debounce (s : State) (c : nat) (o : Settlement) :
  abortCtrl s = Some c ->
  In c (signals s) ->
  let s2 := elapse 300 (onInput "" s) in
  let s3 := step s2 (Settle c o) in
  In c (aborted s2) /\
  (suggestions s2 = JArr [] /\ isOpen s2 = false) /\
  (suggestions s3 = JArr [] /\ isOpen s3 = false) /\
  network s3 = network s.
Proof.
  intros Hc Hin s2 s3.
  destruct (empty_input_elapsed s) as ([Hs2 Ho2] & Hn2 & Hab).
  specialize (Hab c Hc). fold s2 in Hs2, Ho2, Hn2, Hab.
  destruct (settle_aborted_signal c o _ Hab) as (Hs3 & Ho3 & _).
  change (settle c o s2) with s3 in Hs3, Ho3.
  repeat split; auto; try congruence.
  unfold s3. simpl step. now rewrite settle_network.
Qed.

Lemma clearing_invalidates_after_debounce_witness :
  let s := run [Input "ab"; Elapse 300] init in
  let s2 := elapse 300 (onInput "" s) in
  let s3 := step s2 (Settle 0%nat (Responds true)) in
  abortCtrl s = Some 0%nat /\ In 0%nat (signals s) /\
  suggestions s3 = JArr [] /\ isOpen s3 = false.
Proof.
  assert (Hc : abortCtrl (run [Input "ab"; Elapse 300] init) = Some 0%nat) by reflexivity.
  assert (Hin : In 0%nat (signals (run [Input "ab"; Elapse 300] init))) by (vm_compute; now left).
  split; [exact Hc|]. split; [exact Hin|].
  apply (clearing_invalidates_after_debounce _ 0%nat (Responds true) Hc Hin).
Defined.

(* ================================================================== *)
(** * C8: the range of [activeIndex] *)
(* ================================================================== *)

Lemma run_preserves_if (P : State -> Prop) (Q : Event -> Prop) :
  (forall s ev, Q ev -> P s -> P (step s ev)) ->
  forall evs s, Forall Q evs -> P s -> P (run evs s).
Proof.
  intros Hstep evs. induction evs as [|ev evs IH]; intros s Hq Hs; simpl; auto.
  inversion Hq; subst. apply IH; auto.
Qed.

Lemma fetchUsers_index_in_range (q : string) (s : State) :
  index_in_range s -> index_in_range (fetchUsers q s).
Proof.
  intros (Hlo & l & Hs & Hhi). unfold fetchUsers.
  destruct (abortCtrl s), (truthy (JStr (trim q))); simpl;
    (split; [exact Hlo|]); eauto; exists []; split; auto; congruence.
Qed.

Lemma conforms_data (data : JsVal) (s : State) :
  conforms data = true ->
  exists items,
    fetchUsers_data data s =
    fetchUsers_finally
      (match items with
       | [] => set_isOpen false (set_suggestions (JArr []) s)
       | _ => set_activeIndex (-1) (set_isOpen true (set_suggestions (JArr items) s))
       end).
Proof.
  intros Hc. unfold fetchUsers_data.
  destruct data as [| | | | |items|members]; try discriminate; simpl.
  - exists items. destruct items; reflexivity.
  - simpl in Hc. destruct (lookup "results" members) as [| | | | |items|]; try discriminate.
    exists items. destruct items; reflexivity.
Qed.

Lemma nth_error_lt {A : Type} (l : list A) (n : nat) (a : A) :
  nth_error l n = Some a -> (n < List.length l)%nat.
Proof. intros H. apply nth_error_Some. congruence. Qed.

Lemma step_index_in_range (s : State) (ev : Event) :
  event_conforms ev -> index_in_range s -> index_in_range (step s ev).
Proof.
  intros Hev Hr. destruct ev.
  - (* Input *) destruct Hr as (Hlo & l & Hs & Hhi). simpl. destruct (inputEnabled s); [|split; eauto].
    destruct (onInput_frame text s) as (_ & Hs' & _).
    unfold index_in_range.
    replace (activeIndex (onInput text s)) with (activeIndex s) by frame.
    rewrite Hs'. eauto.
  - (* Keydown *) destruct Hr as (Hlo & l & Hs & Hhi). simpl.
    destruct (inputEnabled s); [|split; eauto].
    unfold onKeydown. destruct (isOpen s); simpl; [|split; eauto].
    destruct (String.eqb key "ArrowDown").
    { rewrite Hs. simpl. unfold lt_pred. simpl.
      destruct (activeIndex s <? Z.of_nat (List.length l) - 1) eqn:E; [|split; eauto].
      split; simpl; [lia|]. exists l. split; auto. intros _. lia. }
    destruct (String.eqb key "ArrowUp").
    { destruct (activeIndex s >? 0) eqn:E; [|split; eauto].
      split; simpl; [lia|]. exists l. split; auto. intros Hne. specialize (Hhi Hne). lia. }
    destruct (String.eqb key "Enter" && (activeIndex s >=? 0)).
    { rewrite Hs. simpl. split; simpl; auto. exists []. split; auto. congruence. }
    destruct (String.eqb key "Escape"); split; simpl; eauto.
  - (* Focus *) destruct Hr as (Hlo & l & Hs & Hhi). simpl. unfold handleFocus.
    repeat (simpl; try break_match); split; simpl; eauto.
  - (* Blur *) destruct Hr as (Hlo & l & Hs & Hhi). split; simpl; eauto.
  - (* MouseDown *) destruct Hr as (Hlo & l & Hs & Hhi). simpl.
    repeat (simpl; try break_match); split; simpl; eauto.
    exists []. split; auto. congruence.
  - (* MouseEnter *) destruct Hr as (Hlo & l & Hs & Hhi). simpl.
    destruct (dropdownShown s); [|split; eauto].
    destruct (nth_error (rows s) idx) eqn:E; [|split; eauto].
    apply nth_error_lt in E. unfold rows in E. rewrite Hs in E.
    split; simpl; [lia|]. exists l. split; auto. intros _. lia.
  - (* ClickClear *) destruct Hr as (Hlo & l & Hs & Hhi). simpl.
    destruct (truthy (selectedUser s)); split; simpl; eauto.
  - (* ModelUpdate *) destruct Hr as (Hlo & l & Hs & Hhi). split; simpl; eauto.
  - (* Elapse *) simpl. apply elapse_preserves; auto.
    intros [] s0 H0; simpl; [now apply fetchUsers_index_in_range|].
    destruct H0 as (Hlo0 & l0 & Hs0 & Hhi0). split; simpl; eauto.
  - (* Settle *) simpl. unfold settle. destruct (find_request ctrl s) as [r|]; auto.
    assert (Hd : index_in_range (drop_request ctrl s)).
    { destruct Hr as (Hlo & l & Hs & Hhi). split; simpl; eauto. }
    assert (Hthrow : forall e s0, index_in_range s0 -> index_in_range (fetchUsers_throw e s0)).
    { intros e s0 (Hlo0 & l0 & Hs0 & Hhi0). unfold fetchUsers_throw, fetchUsers_catch.
      destruct (negb (String.eqb (err_name e) "AbortError")); split; simpl; eauto.
      exists []. split; auto. congruence. }
    assert (Hback : forall rs s0, index_in_range s0 -> index_in_range (set_inflight rs s0)).
    { intros rs s0 (Hlo0 & l0 & Hs0 & Hhi0). split; simpl; eauto. }
    destruct (signal_aborted ctrl s); [destruct r as [? ? []]; simpl; auto|].
    unfold fetchUsers_resume.
    destruct (req_phase r), o as [e|ok|data]; auto.
    + destruct ok; simpl; auto.
    + simpl in Hev. destruct (conforms_data data (drop_request ctrl s) Hev) as [items ->].
      destruct Hd as (Hlo0 & l0 & Hs0 & Hhi0).
      destruct items; split; simpl; eauto; try lia.
      * exists []. split; auto. congruence.
      * eexists. split; [reflexivity|]. intros _.
        change (-1 <= Z.of_nat (S (List.length items)) - 1). lia.
  - (* Unmount *) destruct Hr as (Hlo & l & Hs & Hhi). simpl. unfold onUnmounted, clearTimeout.
    destruct (debounceTimer s); split; simpl; eauto.
Qed.

Lemma reachable_index_in_range (evs : list Event) :
  Forall event_conforms evs -> index_in_range (run evs init).
Proof.
  intros H. apply run_preserves_if with (Q := event_conforms); auto.
  - intros; now apply step_index_in_range.
  - split; simpl; [lia|]. exists []. split; auto. congruence.
Qed.

(** Lines 60-67 on any payload: the index is reset exactly when the
    stored value has a truthy [length]. *)
Lemma fetchUsers_data_index (data : JsVal) (s : State) (items : list JsVal) :
  suggestions (fetchUsers_data data s) = JArr items ->
  activeIndex (fetchUsers_data data s) =
  match items with [] => activeIndex s | _ => -1 end.
Proof.
  unfold fetchUsers_data, fetchUsers_throw, fetchUsers_catch.
  destruct (getProp data "results") as [r|]; simpl.
  - destruct (or_else (or_else r data) (JArr [])) as [| | | | |l|] eqn:Hv; simpl;
      try (intros H; inversion H; subst; reflexivity);
      try (repeat break_match; simpl; congruence).
    destruct l; simpl; intros H; inversion H; subst; reflexivity.
  - intros H. inversion H; subst. reflexivity.
Qed.

(** As stated C8 fails: a commit empties the list and keeps the index,
    here 0, which is outside [-1, -1]. *)
Lemma activeIndex_kept_on_commit :
  let s := run (two_candidates ++ [Keydown "ArrowDown"; Keydown "Enter"]) init in
  suggestions s = JArr [] /\ activeIndex s = 0 /\ ~ within_bounds s.
Proof.
  vm_compute. repeat split. intros [_ H]. apply H. reflexivity.
Qed.

(** C8, amended.  Along every run whose payloads follow the interface
    of the lookup service, [activeIndex] is an integer of at least -1 and
    [suggestions] is a list; while that list is not empty,
    [activeIndex] is at most its length minus 1.  A response resets
    [activeIndex] to -1 when the list it stores is not empty; a response
    that stores the empty list, a failure, a commit and a new call of
    [fetchUsers] leave [activeIndex] as it is. *)
Theorem activeIndex_range (evs : list Event) :
  Forall event_conforms evs ->
  let s := run evs init in
  (-1 <= activeIndex s /\
   exists items, suggestions s = JArr items /\
     (items <> [] -> activeIndex s <= Z.of_nat (List.length items) - 1)) /\
  (forall data items,
     suggestions (fetchUsers_data data s) = JArr items -> items <> [] ->
     activeIndex (fetchUsers_data data s) = -1) /\
  (forall data,
     suggestions (fetchUsers_data data s) = JArr [] ->
     activeIndex (fetchUsers_data data s) = activeIndex s) /\
  (forall e, activeIndex (fetchUsers_throw e s) = activeIndex s) /\
  (forall user, activeIndex (selectItem user s) = activeIndex s) /\
  (forall q, activeIndex (fetchUsers q s) = activeIndex s).
Proof.
  intros Hev s. split; [exact (reachable_index_in_range evs Hev)|].
  split; [|split; [|split; [|split]]].
  - intros data items H Hne. rewrite (fetchUsers_data_index _ _ _ H).
    destruct items; congruence.
  - intros data H. now rewrite (fetchUsers_data_index _ _ _ H).
  - frame.
  - frame.
  - frame.
Qed.

Lemma activeIndex_range_witness :
  let evs := two_candidates ++ [Keydown "ArrowDown"] in
  Forall event_conforms evs /\
  -1 <= activeIndex (run evs init) /\
  exists items, suggestions (run evs init) = JArr items /\
    (items <> [] -> activeIndex (run evs init) <= Z.of_nat (List.length items) - 1).
Proof.
  assert (Hev : Forall event_conforms (two_candidates ++ [Keydown "ArrowDown"])).
  { repeat constructor. }
  split; [exact Hev|]. exact (proj1 (activeIndex_range _ Hev)).
Defined.

(* ================================================================== *)
(** * C9: keyboard navigation *)
(* ================================================================== *)

Lemma onKeydown_closed (key : string) (s : State) :
  isOpen s = false -> onKeydown key s = s.
Proof. unfold onKeydown. now intros ->. Qed.

Lemma onKeydown_arrow_bounds (key : string) (s : State) (items : list JsVal) :
  suggestions s = JArr items -> isArrow key -> within_bounds s ->
  within_bounds (onKeydown key s) /\ suggestions (onKeydown key s) = JArr items.
Proof.
  unfold within_bounds, rows. intros Hs Hk Hb. rewrite Hs in Hb.
  unfold onKeydown. destruct (isOpen s); simpl; [|rewrite Hs; auto].
  destruct Hk as [-> | ->]; simpl; rewrite ?Hs; simpl.
  - unfold lt_pred. simpl.
    destruct (activeIndex s <? Z.of_nat (List.length items) - 1) eqn:E;
      simpl; rewrite Hs; split; auto; lia.
  - destruct (activeIndex s >? 0) eqn:E; simpl; rewrite Hs; split; auto; lia.
Qed.

(** C9.  With a list in [suggestions]: while the dropdown is open,
    ArrowDown adds 1 to [activeIndex] when it is below the last index and
    changes nothing otherwise, ArrowUp subtracts 1 when it is above 0 and
    changes nothing otherwise; while the dropdown is closed no key
    changes anything; and no sequence of the two arrow keys takes
    [activeIndex] out of [-1, length - 1]. *)
Theorem navigation_stays_in_bounds (s : State) (items : list JsVal) :
  suggestions s = JArr items ->
  let n := Z.of_nat (List.length items) in
  (isOpen s = true ->
   onKeydown "ArrowDown" s =
     (if activeIndex s <? n - 1 then set_activeIndex (activeIndex s + 1) s else s) /\
   onKeydown "ArrowUp" s =
     (if activeIndex s >? 0 then set_activeIndex (activeIndex s - 1) s else s)) /\
  (isOpen s = false -> forall key, onKeydown key s = s) /\
  (forall keys, Forall isArrow keys -> within_bounds s ->
     within_bounds (navigate keys s) /\ suggestions (navigate keys s) = JArr items).
Proof.
  intros Hs n. split; [|split].
  - intros Ho. unfold onKeydown. rewrite Ho, Hs. simpl. split; reflexivity.
  - intros Ho key. now apply onKeydown_closed.
  - intros keys. revert s Hs. induction keys as [|key keys IH]; intros s Hs Hk Hb; simpl; auto.
    inversion Hk; subst.
    destruct (onKeydown_arrow_bounds key s items) as [Hb' Hs']; auto.
Qed.

(** On two candidates the third ArrowDown and the ArrowUp at index 0
    change nothing. *)
Lemma navigation_stays_in_bounds_witness :
  let s := run two_candidates init in
  suggestions s = JArr [alice; alan] /\
  activeIndex (navigate ["ArrowDown"; "ArrowDown"; "ArrowDown"] s) = 1 /\
  activeIndex (navigate ["ArrowDown"; "ArrowUp"; "ArrowUp"] s) = 0 /\
  within_bounds (navigate ["ArrowDown"; "ArrowDown"; "ArrowDown"] s).
Proof.
  assert (Hs : suggestions (run two_candidates init) = JArr [alice; alan]) by reflexivity.
  split; [exact Hs|]. split; [reflexivity|]. split; [reflexivity|].
  apply (navigation_stays_in_bounds _ _ Hs).
  - repeat constructor; unfold isArrow; auto.
  - vm_compute. split; discriminate.
Defined.

(* ================================================================== *)
(** * C5, C6, C7 and C10: where the handlers part from the specification *)
(* ================================================================== *)

(** Lines 68-75 after a failure that is not an abort: the error is
    logged, the list emptied, the loading flag cleared; [isOpen] and
    [activeIndex] are not written. *)
Lemma fetchUsers_throw_failure (e : JsError) (s : State) :
  err_name e <> "AbortError" ->
  let s' := fetchUsers_throw e s in
  suggestions s' = JArr [] /\ console s' = console s ++ [e] /\ isLoading s' = false /\
  isOpen s' = isOpen s /\ activeIndex s' = activeIndex s.
Proof.
  intros Hne. unfold fetchUsers_throw, fetchUsers_catch.
  destruct (String.eqb (err_name e) "AbortError") eqn:E.
  - apply String.eqb_eq in E. contradiction.
  - simpl. repeat split.
Qed.

(** Lines 68-75 after an abort: only the loading flag is written. *)
Lemma fetchUsers_throw_abort (s : State) :
  fetchUsers_throw AbortError s = set_isLoading false s.
Proof. reflexivity. Qed.

(** C5.  Two candidates are on display, "ab" is typed and its lookup
    answers with a status that is not OK.  The list is emptied, the error
    logged and the loading flag cleared, but [isOpen] is still true: the
    [catch] block does not close the dropdown. *)
Theorem failure_leaves_dropdown_open :
  let s := run (two_candidates ++ [Input "ab"; Elapse 300]) init in
  let s' := step s (Settle 1%nat (Responds false)) in
  (isOpen s = true /\ isLoading s = true) /\
  suggestions s' = JArr [] /\ console s' = [mkError "Error" "API Error"] /\
  isLoading s' = false /\ isOpen s' = true.
Proof. vm_compute. repeat split. Qed.

(** C6.  "a" is in flight when "ab" supersedes it.  The rejection of
    the aborted call runs the [finally] block, and the loading flag is
    false while the request for "ab" is still in flight. *)
Theorem aborted_request_clears_loading :
  let s := run [Input "a"; Elapse 300; Input "ab"; Elapse 300] init in
  let s' := step s (Settle 0%nat (Rejects AbortError)) in
  (isLoading s = true /\ signal_aborted 0%nat s = true /\ abortCtrl s = Some 1%nat) /\
  isLoading s' = false /\
  inflight s' = [mkRequest 1%nat (users_url "ab") AwaitFetch] /\
  signal_aborted 1%nat s' = false.
Proof. vm_compute. repeat split. Qed.

(** C7.  A payload that is an object without [results] is stored as it
    is, where the specification's normalisation yields the empty
    list. *)
Theorem bare_object_is_stored :
  let data := JObj [("foo", JNum 1)] in
  let s := run [Input "a"; Elapse 300; Settle 0%nat (Responds true);
                Settle 0%nat (Parses data)] init in
  suggestions s = data /\ normalize_spec data = JArr [] /\ suggestions s <> normalize_spec data.
Proof. vm_compute. repeat split. discriminate. Qed.

(** C10.  Two candidates are on display with the first one highlighted;
    "ab" is typed and its lookup fails.  The dropdown is still open over
    an empty list with [activeIndex] 0, so Enter commits
    [suggestions[0]], which is [undefined]. *)
Theorem enter_commits_undefined :
  let s := run (two_candidates ++
                [Keydown "ArrowDown"; Input "ab"; Elapse 300;
                 Settle 1%nat (Responds false)]) init in
  let s' := step s (Keydown "Enter") in
  (isOpen s = true /\ activeIndex s = 0 /\ suggestions s = JArr [] /\ searchQuery s = "ab") /\
  getIndex (suggestions s) (activeIndex s) = Some JUndefined /\
  s' = selectItem JUndefined s /\
  selectedUser s' = JUndefined /\ searchQuery s' = "".
Proof. vm_compute. repeat split. Qed.

(* ================================================================== *)
(** * Blank queries *)
(* ================================================================== *)

Lemma trimEnd_empty (s : string) : trimEnd s = "" <-> all_whitespace s = true.
Proof.
  induction s as [|c r IH]; simpl; [tauto|].
  destruct (trimEnd r) eqn:E.
  - destruct (isWhiteSpace c); simpl.
    + rewrite <- IH. tauto.
    + split; discriminate.
  - split; [discriminate|]. intros H. apply andb_prop in H as [_ H].
    apply IH in H. discriminate.
Qed.

Lemma trimStart_whitespace (s : string) : all_whitespace (trimStart s) = all_whitespace s.
Proof.
  induction s as [|c r IH]; simpl; auto.
  destruct (isWhiteSpace c) eqn:E; simpl; auto. now rewrite E.
Qed.

(** [!query.trim()] holds exactly for the strings made of white space. *)
Lemma nonblank_whitespace (q : string) : nonblank q = negb (all_whitespace q).
Proof.
  unfold nonblank, trim. simpl. f_equal.
  destruct (all_whitespace q) eqn:E.
  - rewrite <- trimStart_whitespace in E. apply trimEnd_empty in E. now rewrite E.
  - destruct (trimEnd (trimStart q)) eqn:Et; auto.
    assert (H : all_whitespace (trimStart q) = true) by now apply trimEnd_empty.
    rewrite trimStart_whitespace in H. congruence.
Qed.

(** X1.  What [fetchUsers] does before it suspends, for every query and
    state: the previous controller is aborted and a new one installed;
    a query of white space only empties the list and closes the dropdown
    without a network call and without touching the loading flag; any
    other query sets the loading flag and makes one call, for the search
    URL of the query as typed, leaving list and dropdown as they are. *)
Theorem fetchUsers_first_part (q : string) (s : State) :
  let s' := fetchUsers q s in
  let blank := all_whitespace q in
  network s' = network s ++ (if blank then [] else [users_url q]) /\
  inflight s' = inflight s ++
    (if blank then [] else [mkRequest (nextCtrl s) (users_url q) AwaitFetch]) /\
  suggestions s' = (if blank then JArr [] else suggestions s) /\
  isOpen s' = (if blank then false else isOpen s) /\
  isLoading s' = (if blank then isLoading s else true) /\
  abortCtrl s' = Some (nextCtrl s) /\
  aborted s' = match abortCtrl s with Some c => c :: aborted s | None => aborted s end /\
  activeIndex s' = activeIndex s /\ searchQuery s' = searchQuery s /\
  selectedUser s' = selectedUser s.
Proof.
  cbv zeta. unfold fetchUsers. fold (nonblank q). rewrite nonblank_whitespace.
  destruct (abortCtrl s), (all_whitespace q); simpl; rewrite ?app_nil_r; repeat split.
Qed.

(* ================================================================== *)
(** * Network calls *)
(* ================================================================== *)

Lemma step_network_ui (s : State) (ev : Event) :
  match ev with
  | Elapse _ => True
  | _ => network (step s ev) = network s
  end.
Proof. destruct ev; auto; frame. Qed.

Lemma runCallback_search_urls (cb : Callback) (s : State) :
  Forall search_url (network s) -> Forall search_url (network (runCallback cb s)).
Proof.
  intros H. destruct cb; simpl; auto.
  rewrite fetchUsers_network. apply Forall_app. split; auto.
  unfold calls. rewrite nonblank_whitespace.
  destruct (all_whitespace (searchQuery s)) eqn:E; simpl; auto.
  constructor; auto. now exists (searchQuery s).
Qed.

(** X2.  Only the passing of time makes network calls: every other
    event leaves the list of calls as it is.  And along every run each
    URL passed to [fetch] is the search URL of a query with a code unit
    that is not white space. *)
Theorem network_calls_are_debounced_searches (evs : list Event) (ev : Event) :
  let s := run evs init in
  Forall search_url (network s) /\
  match ev with
  | Elapse _ => True
  | _ => network (step s ev) = network s
  end.
Proof.
  split; [|apply step_network_ui].
  apply (run_preserves (fun s => Forall search_url (network s))); [|constructor].
  intros s ev' H. pose proof (step_network_ui s ev') as Hui.
  destruct ev'; try (rewrite Hui; exact H).
  simpl. apply (elapse_preserves (fun s => Forall search_url (network s))); auto.
  apply runCallback_search_urls.
Qed.

(* ================================================================== *)
(** * Teardown *)
(* ================================================================== *)

Lemma elapse_no_fetchTimers (ms : Z) (s : State) :
  fetchTimers s = [] ->
  fetchTimers (elapse ms s) = [] /\ network (elapse ms s) = network s.
Proof.
  intros Hft. unfold elapse. destruct (ms <? 0); auto. split.
  - unfold fetchTimers. simpl.
    match goal with |- context [fire ?d ?s0] => destruct (fire_frame d s0) as (-> & _) end.
    simpl. rewrite filter_comm. fold (fetchTimers s). now rewrite Hft.
  - simpl. rewrite fire_blur_network; auto.
    rewrite filter_comm. fold (fetchTimers s). now rewrite Hft.
Qed.

Lemma onUnmounted_no_fetchTimers (s : State) :
  debounce_owned s -> fetchTimers (onUnmounted s) = [].
Proof.
  intros Hown. unfold onUnmounted, fetchTimers, clearTimeout.
  destruct (debounceTimer s) as [old|] eqn:Hd; simpl; apply filter_nil_iff; intros t Ht.
  - apply filter_In in Ht as [Ht Hne]. unfold isFetchTimer.
    destruct (tm_cb t) eqn:Hcb; auto.
    specialize (Hown t Ht Hcb). rewrite Hd in Hown. inversion Hown; subst.
    now rewrite Nat.eqb_refl in Hne.
  - unfold isFetchTimer. destruct (tm_cb t) eqn:Hcb; auto.
    specialize (Hown t Ht Hcb). congruence.
Qed.

(** X3.  After [onUnmounted], in any state the component can reach, no
    timer is left that would call [fetchUsers]: however much time
    passes, in however many steps, no network call is made. *)
Theorem unmount_cancels_pending_search (evs : list Event) (waits : list Z) :
  let s := onUnmounted (run evs init) in
  fetchTimers s = [] /\
  network (run (map Elapse waits) s) = network (run evs init).
Proof.
  cbv zeta.
  pose proof (onUnmounted_no_fetchTimers _ (reachable_debounce_owned evs)) as Hft.
  split; auto.
  assert (Hn : network (onUnmounted (run evs init)) = network (run evs init)) by frame.
  rewrite <- Hn. clear Hn. generalize dependent (onUnmounted (run evs init)). clear.
  induction waits as [|ms waits IH]; intros s Hft; simpl; auto.
  destruct (elapse_no_fetchTimers ms s Hft) as [Hft' Hn']. rewrite IH; auto.
Qed.

(* ================================================================== *)
(** * Requests in flight *)
(* ================================================================== *)

Lemma find_request_none (c : nat) (s : State) :
  find_request c s = None -> ~ In c (signals s).
Proof.
  unfold find_request, signals. intros H Hin.
  apply in_map_iff in Hin as (r & Hr & Hin).
  apply (find_none _ _ H) in Hin. subst c. now rewrite Nat.eqb_refl in Hin.
Qed.

Lemma signals_drop (c : nat) (rs : list Request) :
  ~ In c (map req_signal (filter (fun r => negb (Nat.eqb (req_signal r) c)) rs)).
Proof.
  intros H. apply in_map_iff in H as (r & Hr & Hin). apply filter_In in Hin as [_ Hne].
  subst c. now rewrite Nat.eqb_refl in Hne.
Qed.

(** A settlement either finds no call, or ends the call with the
    loading flag cleared, or leaves the call suspended. *)
Lemma settle_outcome (c : nat) (o : Settlement) (s : State) :
  let rest := filter (fun r => negb (Nat.eqb (req_signal r) c)) (inflight s) in
  (find_request c s = None /\ settle c o s = s) \/
  (inflight (settle c o s) = rest /\ isLoading (settle c o s) = false) \/
  (exists r, req_signal r = c /\ In c (signals s) /\
             inflight (settle c o s) = rest ++ [r] /\
             isLoading (settle c o s) = isLoading s).
Proof.
  cbv zeta. unfold settle. destruct (find_request c s) as [r|] eqn:Hr; [right | left; auto].
  apply find_request_signal in Hr as [Hrc Hin].
  destruct (signal_aborted c s); [left; destruct r as [? ? []]; simpl; auto|].
  unfold fetchUsers_resume. destruct (req_phase r), o as [e|ok|data];
    try (left; simpl; split; [|reflexivity]; unfold fetchUsers_catch;
         match goal with |- context [negb ?b] => destruct b end; reflexivity);
    try (right; exists r; simpl; auto; fail).
  - destruct ok; simpl.
    + right. exists (mkRequest (req_signal r) (req_url r) AwaitJson). simpl.
      split; [exact Hrc|]. split; [exact Hin|]. split; reflexivity.
    + left. auto.
  - left. unfold fetchUsers_data, fetchUsers_throw, fetchUsers_catch.
    repeat (simpl; try break_match); simpl; auto.
Qed.

Lemma NoDup_snoc {A : Type} (l : list A) (a : A) :
  NoDup l -> ~ In a l -> NoDup (l ++ [a]).
Proof.
  induction 1 as [|b l Hb Hl IH]; simpl; intros Hin.
  - constructor; auto. constructor.
  - constructor.
    + intros H. apply in_app_or in H as [H|[H|[]]]; auto.
    + apply IH. auto.
Qed.

Lemma NoDup_map_filter {A B : Type} (g : A -> B) (f : A -> bool) (l : list A) :
  NoDup (map g l) -> NoDup (map g (filter f l)).
Proof.
  induction l as [|a l IH]; simpl; auto.
  intros H. inversion H as [|? ? Hn Hl]; subst. destruct (f a); simpl; auto.
  constructor; auto. intros Hin. apply Hn.
  apply in_map_iff in Hin as (x & Hx & Hin). apply filter_In in Hin as [Hin _].
  rewrite <- Hx. now apply in_map.
Qed.

Lemma fetchUsers_fresh_signals (q : string) (s : State) :
  fresh_signals s -> fresh_signals (fetchUsers q s).
Proof.
  intros [Hnd Hlt]. unfold fresh_signals, signals. rewrite fetchUsers_inflight.
  assert (Hn : nextCtrl (fetchUsers q s) = S (nextCtrl s)).
  { unfold fetchUsers. destruct (abortCtrl s), (truthy (JStr (trim q))); reflexivity. }
  rewrite Hn. destruct (nonblank q).
  - rewrite map_app. simpl. split.
    + apply NoDup_snoc; auto. intros H. apply Hlt in H. lia.
    + intros c Hc. apply in_app_or in Hc as [Hc|[<-|[]]]; [apply Hlt in Hc|]; lia.
  - split; auto. intros c Hc. apply Hlt in Hc. lia.
Qed.

Lemma step_nextCtrl_ui (s : State) (ev : Event) :
  match ev with
  | Elapse _ => True
  | _ => nextCtrl (step s ev) = nextCtrl s
  end.
Proof. destruct ev; auto; frame. Qed.

Lemma step_fresh_signals (s : State) (ev : Event) :
  fresh_signals s -> fresh_signals (step s ev).
Proof.
  intros H. pose proof (step_nextCtrl_ui s ev) as Hn.
  destruct ev;
    try (match goal with
         | |- fresh_signals (step ?s ?e) =>
             destruct (same_requests_ui s e I) as (Hi & _ & _);
             unfold fresh_signals, signals in *; rewrite Hi, Hn; exact H
         end).
  - simpl. apply elapse_preserves; auto.
    intros [] s0 H0; simpl; auto using fetchUsers_fresh_signals.
  - destruct H as [Hnd Hlt]. unfold fresh_signals, signals in *. rewrite Hn. simpl.
    destruct (settle_outcome ctrl o s) as [[_ ->] | [[-> _] | (r & Hr & Hin & -> & _)]]; auto.
    + split; [now apply NoDup_map_filter|].
      intros c Hc. apply Hlt. eapply signals_filter, Hc.
    + rewrite map_app. simpl. rewrite Hr. split.
      * apply NoDup_snoc; [now apply NoDup_map_filter | apply signals_drop].
      * intros c Hc. apply in_app_or in Hc as [Hc|[<-|[]]].
        -- apply Hlt. eapply signals_filter, Hc.
        -- now apply Hlt.
Qed.

Lemma reachable_fresh_signals (evs : list Event) : fresh_signals (run evs init).
Proof.
  apply run_preserves; [apply step_fresh_signals|].
  split; [constructor | intros c []].
Qed.

Lemma one_per_key {A : Type} (g : A -> nat) (l : list A) (c : nat) :
  NoDup (map g l) -> (forall x, In x l -> g x = c) -> (List.length l <= 1)%nat.
Proof.
  destruct l as [|x [|y l]]; simpl; auto. intros Hnd Hc. exfalso.
  inversion Hnd as [|? ? Hn _]; subst. apply Hn. left.
  rewrite (Hc x), (Hc y); auto.
Qed.

Lemma live_is_current (s : State) (r : Request) :
  stale_aborted s -> In r (live s) -> abortCtrl s = Some (req_signal r).
Proof.
  intros Hinv Hr. apply filter_In in Hr as [Hin Hlive].
  destruct (abortCtrl_dec s (req_signal r)) as [Heq|Hne]; auto.
  assert (Hab : In (req_signal r) (aborted s)).
  { apply Hinv; auto. unfold signals. now apply in_map. }
  apply in_aborted_signal in Hab. rewrite Hab in Hlive. discriminate.
Qed.

(** X4.  Along every run the suspended calls hold distinct signals, a
    call whose signal is not aborted holds the signal of the current
    controller, and so at most one call in flight can still apply its
    result. *)
Theorem at_most_one_live_request (evs : list Event) :
  let s := run evs init in
  NoDup (signals s) /\
  (forall r, In r (live s) -> abortCtrl s = Some (req_signal r)) /\
  (List.length (live s) <= 1)%nat.
Proof.
  intros s. pose proof (reachable_stale_aborted evs) as Hinv.
  destruct (reachable_fresh_signals evs) as [Hnd _]. fold s in Hinv, Hnd.
  split; auto. split; [intros r; now apply live_is_current|].
  destruct (abortCtrl s) as [c|] eqn:Hc.
  - apply one_per_key with (g := req_signal) (c := c).
    + now apply NoDup_map_filter.
    + intros r Hr. apply live_is_current in Hr; auto. congruence.
  - destruct (live s) as [|r l] eqn:El; simpl; auto.
    assert (Hr : In r (live s)) by (rewrite El; now left).
    apply live_is_current in Hr; auto. congruence.
Qed.

Lemma step_isLoading_ui (s : State) (ev : Event) :
  match ev with
  | Elapse _ | Settle _ _ => True
  | _ => isLoading (step s ev) = isLoading s
  end.
Proof. destruct ev; auto; frame. Qed.

Lemma step_loading_in_flight (s : State) (ev : Event) :
  (isLoading s = true -> inflight s <> []) ->
  isLoading (step s ev) = true -> inflight (step s ev) <> [].
Proof.
  intros H. pose proof (step_isLoading_ui s ev) as Hl.
  destruct ev;
    try (match goal with
         | |- _ -> inflight (step ?s ?e) <> [] =>
             destruct (same_requests_ui s e I) as (-> & _ & _); rewrite Hl; exact H
         end).
  - simpl.
    apply (elapse_preserves (fun s => isLoading s = true -> inflight s <> [])); auto.
    intros [] s0 H0; simpl; auto.
    rewrite fetchUsers_inflight. unfold fetchUsers.
    destruct (abortCtrl s0); fold (nonblank (searchQuery s0));
      destruct (nonblank (searchQuery s0)); simpl; auto;
      intros _ Hnil; now apply app_eq_nil in Hnil as [_ Hnil].
  - simpl.
    destruct (settle_outcome ctrl o s) as [[_ ->] | [[_ ->] | (r & _ & _ & -> & _)]]; auto.
    + discriminate.
    + intros _ Hnil. now apply app_eq_nil in Hnil as [_ Hnil].
Qed.

(** X5.  Along every run, while the loading flag is set a call of
    [fetchUsers] is suspended: the loader never shows with nothing in
    flight. *)
Theorem loading_means_in_flight (evs : list Event) :
  let s := run evs init in
  isLoading s = true -> inflight s <> [].
Proof.
  apply (run_preserves (fun s => isLoading s = true -> inflight s <> [])).
  - apply step_loading_in_flight.
  - discriminate.
Qed.

Lemma loading_means_in_flight_witness :
  let s := run [Input "a"; Elapse 300] init in
  isLoading s = true /\ inflight s <> [].
Proof.
  split; [reflexivity|].
  apply (loading_means_in_flight [Input "a"; Elapse 300]). reflexivity.
Defined.

(** X6.  In every state, a settlement after which the call is no longer
    suspended leaves the loading flag cleared: success, failure and
    abort all pass through [finally]. *)
Theorem completion_clears_loading (s : State) (c : nat) (o : Settlement) :
  In c (signals s) ->
  ~ In c (signals (settle c o s)) ->
  isLoading (settle c o s) = false.
Proof.
  intros Hin Hout.
  destruct (settle_outcome c o s) as [[Hnone _] | [[_ Hl] | (r & Hr & _ & Hi & _)]]; auto.
  - now apply find_request_none in Hnone.
  - exfalso. apply Hout. unfold signals. rewrite Hi, map_app. apply in_or_app.
    right. simpl. auto.
Qed.

Lemma completion_clears_loading_witness :
  let s := run [Input "a"; Elapse 300; Settle 0%nat (Responds true)] init in
  let o := Parses (JArr []) in
  In 0%nat (signals s) /\ ~ In 0%nat (signals (settle 0%nat o s)) /\
  isLoading s = true /\ isLoading (settle 0%nat o s) = false.
Proof.
  assert (Hin : In 0%nat (signals (run [Input "a"; Elapse 300;
                                        Settle 0%nat (Responds true)] init))).
  { vm_compute. now left. }
  assert (Hout : ~ In 0%nat (signals (settle 0%nat (Parses (JArr []))
                   (run [Input "a"; Elapse 300; Settle 0%nat (Responds true)] init)))).
  { vm_compute. tauto. }
  split; [exact Hin|]. split; [exact Hout|]. split; [reflexivity|].
  exact (completion_clears_loading _ _ _ Hin Hout).
Defined.

(* ================================================================== *)
(** * Responses of the shape the interface gives *)
(* ================================================================== *)

Lemma fetchUsers_data_conforming (data : JsVal) (s : State) :
  conforms data = true ->
  let s' := fetchUsers_data data s in
  let items := payload_items data in
  suggestions s' = JArr items /\
  suggestions s' = normalize_spec data /\
  isOpen s' = negb (Nat.eqb (List.length items) 0) /\
  activeIndex s' = (if Nat.eqb (List.length items) 0 then activeIndex s else -1) /\
  isLoading s' = false /\ console s' = console s /\
  searchQuery s' = searchQuery s /\ selectedUser s' = selectedUser s.
Proof.
  intros Hc. cbv zeta.
  destruct (conforms_data data s Hc) as [items Hd].
  destruct data as [| | | | |l|members]; try discriminate.
  - unfold fetchUsers_data, normalize_spec. simpl. destruct l; simpl; repeat split.
  - simpl in Hc. unfold fetchUsers_data, normalize_spec, payload_items. simpl.
    destruct (lookup "results" members) as [| | | | |l|]; try discriminate.
    destruct l; simpl; repeat split.
Qed.

(** X7.  For a payload that is an array, or an object whose [results]
    is an array, lines 59-67 store that array, which is also what the
    normalisation of the specification yields; the dropdown is open
    exactly when the array is not empty, [activeIndex] is -1 in that case
    and untouched otherwise, the loading flag is cleared and nothing is
    logged. *)
Theorem conforming_payload_is_its_list (data : JsVal) (s : State) :
  conforms data = true ->
  let s' := fetchUsers_data data s in
  let items := payload_items data in
  suggestions s' = JArr items /\
  suggestions s' = normalize_spec data /\
  isOpen s' = negb (Nat.eqb (List.length items) 0) /\
  activeIndex s' = (if Nat.eqb (List.length items) 0 then activeIndex s else -1) /\
  isLoading s' = false /\ console s' = console s /\
  searchQuery s' = searchQuery s /\ selectedUser s' = selectedUser s.
Proof. exact (fetchUsers_data_conforming data s). Qed.

Lemma conforming_payload_is_its_list_witness :
  let data := JObj [("results", JArr [alice; alan])] in
  conforms data = true /\
  suggestions (fetchUsers_data data init) = JArr [alice; alan] /\
  isOpen (fetchUsers_data data init) = true.
Proof.
  assert (Hc : conforms (JObj [("results", JArr [alice; alan])]) = true) by reflexivity.
  split; [exact Hc|].
  destruct (conforming_payload_is_its_list _ init Hc) as (Hs & _ & Ho & _).
  split; [exact Hs | exact Ho].
Defined.

(* ================================================================== *)
(** * The debounce timer *)
(* ================================================================== *)

Lemma filter_true {A : Type} (l : list A) : filter (fun _ => true) l = l.
Proof. induction l as [|a l IH]; simpl; congruence. Qed.

Lemma filter_length_le' {A : Type} (f : A -> bool) (l : list A) :
  (List.length (filter f l) <= List.length l)%nat.
Proof. induction l as [|a l IH]; simpl; auto. destruct (f a); simpl; lia. Qed.

(** Apart from [onInput], a step only removes pending debounce timers. *)
Lemma step_fetchTimers (s : State) (ev : Event) :
  (exists text, ev = Input text /\ inputEnabled s = true) \/
  (exists f, fetchTimers (step s ev) = filter f (fetchTimers s)) /\
  debounceTimer (step s ev) = debounceTimer s.
Proof.
  assert (Hsame : forall s', timers s' = timers s ->
            exists f, fetchTimers s' = filter f (fetchTimers s)).
  { intros s' Ht. exists (fun _ => true). unfold fetchTimers. now rewrite filter_true, Ht. }
  assert (Hblur : forall s0, timers s0 = timers s ->
            exists f, fetchTimers (handleBlur s0) = filter f (fetchTimers s)).
  { intros s0 Ht. exists (fun _ => true). unfold fetchTimers, handleBlur, setTimeout. simpl.
    rewrite filter_true, filter_enqueue_other, Ht; auto. }
  destruct ev; simpl.
  - destruct (inputEnabled s) eqn:E; [left; eauto | right; split; auto].
  - right. split; [|frame]. destruct (inputEnabled s); auto.
    unfold onKeydown. destruct (isOpen s); simpl; auto.
    repeat (break_match; simpl; auto);
      try (apply Hsame; reflexivity); try (apply Hblur; reflexivity).
  - right. split; [|frame]. apply Hsame. frame.
  - right. split; [|frame]. apply Hblur. reflexivity.
  - right. split; [|frame]. apply Hsame. frame.
  - right. split; [|frame]. apply Hsame. frame.
  - right. split; [|frame]. apply Hsame. frame.
  - right. split; [|frame]. apply Hsame. frame.
  - right. unfold elapse. destruct (ms <? 0) eqn:E; [split; auto|].
    destruct (elapse_timers ms s) as (Ht & Hd & _); [lia|].
    unfold elapse in Ht, Hd. rewrite E in Ht, Hd. split; auto.
    eexists. unfold fetchTimers. rewrite Ht. apply filter_comm.
  - right. split; [|frame]. apply Hsame. frame.
  - right. split; [|frame]. unfold onUnmounted, clearTimeout.
    destruct (debounceTimer s); auto. eexists. unfold fetchTimers. simpl. apply filter_comm.
Qed.

Lemma step_clock (s : State) (ev : Event) :
  match ev with
  | Elapse ms => clock (step s ev) = clock s + Z.max 0 ms
  | _ => clock (step s ev) = clock s
  end.
Proof.
  destruct ev; try (frame; fail). simpl.
  destruct (Z.ltb_spec ms 0) as [Hneg|Hpos].
  - unfold elapse. destruct (ms <? 0) eqn:E; [lia|lia].
  - destruct (elapse_timers ms s Hpos) as (_ & _ & _ & ->). lia.
Qed.

Lemma one_debounce_owned (s : State) : one_debounce s -> debounce_owned s.
Proof.
  intros [_ H] t Hin Hcb. apply H. apply filter_In. split; auto.
  unfold isFetchTimer. now rewrite Hcb.
Qed.

Lemma step_one_debounce (s : State) (ev : Event) :
  one_debounce s -> one_debounce (step s ev).
Proof.
  intros Hinv. pose proof Hinv as [Hlen Hall].
  destruct (step_fetchTimers s ev) as [(text & -> & Hen) | [[f Hf] Hd]].
  - simpl. rewrite Hen.
    destruct (onInput_armed text s (one_debounce_owned s Hinv)) as (_ & _ & id & Hft & Hid).
    split; rewrite Hft; simpl; auto.
    intros t [<-|[]]. simpl. split; auto. lia.
  - assert (Hmost : forall ms, ev = Elapse ms -> 0 <= ms -> one_debounce (step s ev)).
    { intros ms -> Hms. simpl.
      destruct (elapse_timers ms s Hms) as (Ht & Hd' & _ & Hc).
      split.
      - simpl in Hf. rewrite Hf. etransitivity; [apply filter_length_le'|exact Hlen].
      - intros t Hin. unfold fetchTimers in Hin. rewrite Ht in Hin.
        apply filter_In in Hin as [Hin Hfetch]. apply filter_In in Hin as [Hin Hlate].
        destruct (Hall t) as [Hid Hdue]; [apply filter_In; auto|].
        rewrite Hd', Hc. split; auto.
        unfold is_due in Hlate. apply negb_true_iff, Z.leb_gt in Hlate. lia. }
    pose proof (step_clock s ev) as Hc.
    destruct ev;
      try (split; [rewrite Hf; etransitivity; [apply filter_length_le'|exact Hlen] |
                   intros t Hin; rewrite Hf in Hin; apply filter_In in Hin as [Hin _];
                   rewrite Hd, Hc; now apply Hall]; fail).
    destruct (Z.ltb_spec ms 0) as [Hneg|Hpos]; [|now apply (Hmost ms)].
    simpl. unfold elapse. destruct (ms <? 0) eqn:E; [exact Hinv|lia].
Qed.

(** X8.  Along every run at most one timer is pending that will call
    [fetchUsers]; [debounceTimer] holds its handle, and it fires within
    300 ms: each keystroke replaces the timer of the one before. *)
Theorem one_debounce_timer (evs : list Event) :
  let s := run evs init in
  (List.length (fetchTimers s) <= 1)%nat /\
  forall t, In t (fetchTimers s) ->
    debounceTimer s = Some (tm_id t) /\ clock s < tm_due t <= clock s + 300.
Proof.
  apply (run_preserves one_debounce); [apply step_one_debounce|].
  split; simpl; auto. intros t [].
Qed.

Lemma one_debounce_timer_witness :
  let s := run [Input "a"; Elapse 100] init in
  In (mkTimer 1 300 CbFetch) (fetchTimers s) /\
  debounceTimer s = Some 1%nat /\ clock s < 300 <= clock s + 300.
Proof.
  assert (Hin : In (mkTimer 1 300 CbFetch) (fetchTimers (run [Input "a"; Elapse 100] init))).
  { vm_compute. now left. }
  split; [exact Hin|].
  exact (proj2 (one_debounce_timer [Input "a"; Elapse 100]) _ Hin).
Defined.

Lemma at_most_one_live_request_witness :
  let s := run [Input "a"; Elapse 300; Input "ab"; Elapse 300] init in
  let r := mkRequest 1 (users_url "ab") AwaitFetch in
  In r (live s) /\ abortCtrl s = Some (req_signal r).
Proof.
  assert (Hin : In (mkRequest 1 (users_url "ab") AwaitFetch)
                  (live (run [Input "a"; Elapse 300; Input "ab"; Elapse 300] init))).
  { vm_compute. now left. }
  split; [exact Hin|].
  exact (proj1 (proj2 (at_most_one_live_request
                         [Input "a"; Elapse 300; Input "ab"; Elapse 300])) _ Hin).
Defined.

(* ================================================================== *)
(** * Focus and blur *)
(* ================================================================== *)

Lemma runCallback_frame_ui (cb : Callback) (s : State) :
  activeIndex (runCallback cb s) = activeIndex s /\
  selectedUser (runCallback cb s) = selectedUser s.
Proof.
  destruct cb; simpl; auto. unfold fetchUsers.
  destruct (abortCtrl s), (truthy (JStr (trim (searchQuery s)))); simpl; auto.
Qed.

Lemma fire_frame_ui (due : list Timer) (s : State) :
  activeIndex (fire due s) = activeIndex s /\
  selectedUser (fire due s) = selectedUser s.
Proof.
  revert s. induction due as [|t due IH]; intros s; simpl; auto.
  destruct (IH (runCallback (tm_cb t) s)) as (-> & ->). apply runCallback_frame_ui.
Qed.

Lemma runCallback_closed (cb : Callback) (s : State) :
  isOpen s = false /\ isFocused s = false ->
  isOpen (runCallback cb s) = false /\ isFocused (runCallback cb s) = false.
Proof.
  intros [Ho Hf]. destruct cb; simpl; auto. unfold fetchUsers.
  destruct (abortCtrl s), (truthy (JStr (trim (searchQuery s)))); simpl; auto.
Qed.

(** Once a callback of [handleBlur] has run, the dropdown is closed and
    the focus flag cleared, whatever other timers fire after it. *)
Lemma fire_blur_closes (due : list Timer) (s : State) :
  ((isOpen s = false /\ isFocused s = false) \/ exists t, In t due /\ tm_cb t = CbBlur) ->
  isOpen (fire due s) = false /\ isFocused (fire due s) = false.
Proof.
  revert s. induction due as [|t due IH]; intros s; simpl.
  - intros [H|(t & [] & _)]; auto.
  - intros [H|(t' & [<-|Hin] & Hcb)]; apply IH.
    + left. now apply runCallback_closed.
    + left. rewrite Hcb. simpl. auto.
    + right. eauto.
Qed.

Lemma handleBlur_timer_due (s : State) :
  let s0 := handleBlur s in
  In (mkTimer (nextTimer s) (clock s + 200) CbBlur) (filter (is_due (clock s0 + 200)) (timers s0)).
Proof.
  cbv zeta. unfold handleBlur, setTimeout. simpl. apply filter_In. split.
  - apply In_enqueue. now left.
  - unfold is_due. simpl. lia.
Qed.

Lemma handleBlur_elapsed (s : State) :
  let s0 := handleBlur s in
  let s1 := elapse 200 s0 in
  (isOpen s0 = isOpen s /\ isFocused s0 = isFocused s /\ suggestions s0 = suggestions s /\
   activeIndex s0 = activeIndex s /\ searchQuery s0 = searchQuery s) /\
  isOpen s1 = false /\ isFocused s1 = false /\
  activeIndex s1 = activeIndex s /\ selectedUser s1 = selectedUser s.
Proof.
  cbv zeta. split; [repeat split|].
  pose proof (handleBlur_timer_due s) as Hdue. cbv zeta in Hdue.
  unfold elapse. change (200 <? 0) with false. cbv iota.
  set (s0 := handleBlur s) in *.
  set (due := filter (is_due (clock s0 + 200)) (timers s0)) in *.
  set (sq := set_timers _ s0).
  destruct (fire_blur_closes due sq) as [Ho Hf]; [right; eauto|].
  destruct (fire_frame_ui due sq) as [Ha Hu].
  split; [exact Ho|]. split; [exact Hf|]. split; [exact Ha | exact Hu].
Qed.

(** X9.  [handleBlur] itself changes nothing the user sees; 200 ms
    later, with no other event, the dropdown is closed and the focus
    flag cleared, while the highlighted index and the bound value are as
    before. *)
Theorem blur_closes_after_grace (s : State) :
  let s0 := handleBlur s in
  let s1 := elapse 200 s0 in
  (isOpen s0 = isOpen s /\ isFocused s0 = isFocused s /\ suggestions s0 = suggestions s /\
   activeIndex s0 = activeIndex s /\ searchQuery s0 = searchQuery s) /\
  isOpen s1 = false /\ isFocused s1 = false /\
  activeIndex s1 = activeIndex s /\ selectedUser s1 = selectedUser s.
Proof. exact (handleBlur_elapsed s). Qed.

Lemma runCallback_nonblank_suggestions (cb : Callback) (s : State) :
  nonblank (searchQuery s) = true -> suggestions (runCallback cb s) = suggestions s.
Proof.
  intros Hb. destruct cb; simpl; auto. unfold fetchUsers. unfold nonblank in Hb. rewrite Hb.
  destruct (abortCtrl s); reflexivity.
Qed.

Lemma fire_nonblank_suggestions (due : list Timer) (s : State) :
  nonblank (searchQuery s) = true -> suggestions (fire due s) = suggestions s.
Proof.
  revert s. induction due as [|t due IH]; intros s Hb; simpl; auto.
  destruct (runCallback_frame (tm_cb t) s) as (_ & _ & Hq & _).
  rewrite IH; [now apply runCallback_nonblank_suggestions | now rewrite Hq].
Qed.

Lemma nonblank_nonempty (q : string) : nonblank q = true -> truthy (JStr q) = true.
Proof. destruct q; [discriminate | reflexivity]. Qed.

Lemma handleFocus_reopens (s : State) (u : JsVal) (items : list JsVal) :
  truthy (JStr (searchQuery s)) = true -> suggestions s = JArr (u :: items) ->
  handleFocus s = set_isOpen true (set_isFocused true s).
Proof.
  intros Ht Hs. unfold handleFocus.
  change (searchQuery (set_isFocused true s)) with (searchQuery s).
  change (suggestions (set_isFocused true s)) with (suggestions s).
  now rewrite Ht, Hs.
Qed.

(** X10.  With a query that is not blank and a list that is not empty:
    after a blur and its 200 ms the dropdown is closed, and a focus then
    reopens it over the same list with the same highlighted index. *)
Theorem refocus_reopens (s : State) (items : list JsVal) :
  nonblank (searchQuery s) = true ->
  suggestions s = JArr items ->
  items <> [] ->
  let s1 := elapse 200 (handleBlur s) in
  let s2 := handleFocus s1 in
  isOpen s1 = false /\
  isOpen s2 = true /\ isFocused s2 = true /\
  suggestions s2 = JArr items /\ activeIndex s2 = activeIndex s.
Proof.
  intros Hb Hs Hne s1 s2.
  destruct (handleBlur_elapsed s) as (_ & Ho & _ & Ha & _). fold s1 in Ho, Ha.
  assert (Hq : searchQuery s1 = searchQuery s).
  { unfold s1. destruct (elapse_timers 200 (handleBlur s)) as (_ & _ & -> & _); [lia|].
    reflexivity. }
  assert (Hs1 : suggestions s1 = JArr items).
  { rewrite <- Hs. unfold s1, elapse. change (200 <? 0) with false. cbv iota.
    change (suggestions (fire (filter (is_due (clock (handleBlur s) + 200))
                                 (timers (handleBlur s)))
                           (set_timers (filter (fun t => negb (is_due (clock (handleBlur s) + 200) t))
                                          (timers (handleBlur s))) (handleBlur s)))
            = suggestions s).
    now rewrite fire_nonblank_suggestions. }
  split; [exact Ho|].
  destruct items as [|u items]; [congruence|].
  subst s2. clearbody s1. rewrite (handleFocus_reopens s1 u items); auto.
  apply nonblank_nonempty. now rewrite Hq.
Qed.

Lemma refocus_reopens_witness :
  let s := run two_candidates init in
  nonblank (searchQuery s) = true /\ suggestions s = JArr [alice; alan] /\
  isOpen (elapse 200 (handleBlur s)) = false /\
  isOpen (handleFocus (elapse 200 (handleBlur s))) = true.
Proof.
  assert (Hb : nonblank (searchQuery (run two_candidates init)) = true) by reflexivity.
  assert (Hs : suggestions (run two_candidates init) = JArr [alice; alan]) by reflexivity.
  assert (Hne : [alice; alan] <> []) by discriminate.
  split; [exact Hb|]. split; [exact Hs|].
  destruct (refocus_reopens _ _ Hb Hs Hne) as (H1 & H2 & _).
  split; [exact H1 | exact H2].
Defined.

(** X11.  The grace period: a mouse-down on a row right after the blur
    still commits that row, and when the 200 ms are over the committed
    state stands: the candidate is selected, the query and the list are
    empty, the dropdown is closed and the focus flag is cleared. *)
Theorem mousedown_in_grace_commits (s : State) (idx : nat) (u : JsVal) :
  dropdownShown s = true ->
  nth_error (rows s) idx = Some u ->
  let s' := run [Blur; MouseDown idx; Elapse 200] s in
  selectedUser s' = u /\ searchQuery s' = "" /\ suggestions s' = JArr [] /\
  isOpen s' = false /\ isFocused s' = false.
Proof.
  intros Hshown Hrow. cbv zeta.
  assert (H1 : run [Blur; MouseDown idx; Elapse 200] s =
               elapse 200 (selectItem u (handleBlur s))).
  { simpl. change (dropdownShown (handleBlur s)) with (dropdownShown s).
    change (rows (handleBlur s)) with (rows s). now rewrite Hshown, Hrow. }
  rewrite H1. clear H1.
  pose proof (handleBlur_timer_due s) as Hdue. cbv zeta in Hdue.
  unfold elapse. change (200 <? 0) with false. cbv iota.
  change (timers (selectItem u (handleBlur s))) with (timers (handleBlur s)).
  change (clock (selectItem u (handleBlur s))) with (clock (handleBlur s)).
  set (s0 := handleBlur s) in *.
  set (due := filter (is_due (clock s0 + 200)) (timers s0)) in *.
  set (sq := set_timers _ (selectItem u s0)).
  assert (Hb : nonblank (searchQuery sq) = false) by reflexivity.
  destruct (fire_blank due sq Hb) as [_ Hcl].
  destruct Hcl as [Hs Ho]; [left; split; reflexivity|].
  destruct (fire_blur_closes due sq) as [_ Hf]; [right; eauto|].
  destruct (fire_frame_ui due sq) as [_ Hu].
  destruct (fire_frame due sq) as (_ & _ & Hq & _).
  split; [exact Hu|]. split; [exact Hq|]. split; [exact Hs|]. split; [exact Ho | exact Hf].
Qed.

Lemma mousedown_in_grace_commits_witness :
  let s := run two_candidates init in
  dropdownShown s = true /\ nth_error (rows s) 1 = Some alan /\
  selectedUser (run [Blur; MouseDown 1; Elapse 200] s) = alan.
Proof.
  assert (Hshown : dropdownShown (run two_candidates init) = true) by reflexivity.
  assert (Hrow : nth_error (rows (run two_candidates init)) 1 = Some alan) by reflexivity.
  split; [exact Hshown|]. split; [exact Hrow|].
  exact (proj1 (mousedown_in_grace_commits _ _ _ Hshown Hrow)).
Defined.

(* ================================================================== *)
(** * Keys *)
(* ================================================================== *)

(** X12.  Escape on an open dropdown closes it at once and keeps the
    list, the highlighted index and the query; it leaves a blur timer
    behind, and until the dropdown is opened again no key does
    anything. *)
Theorem escape_closes_and_keeps_items (s : State) (key : string) :
  isOpen s = true ->
  let s1 := onKeydown "Escape" s in
  isOpen s1 = false /\ suggestions s1 = suggestions s /\ activeIndex s1 = activeIndex s /\
  searchQuery s1 = searchQuery s /\ selectedUser s1 = selectedUser s /\
  In (mkTimer (nextTimer s) (clock s + 200) CbBlur) (timers s1) /\
  onKeydown key s1 = s1.
Proof.
  intros Ho. cbv zeta.
  assert (H : onKeydown "Escape" s = handleBlur (set_isOpen false s)).
  { unfold onKeydown. now rewrite Ho. }
  rewrite H. repeat split.
  unfold handleBlur, setTimeout. simpl. apply In_enqueue. now left.
Qed.

Lemma escape_closes_and_keeps_items_witness :
  let s := run two_candidates init in
  isOpen s = true /\
  suggestions (onKeydown "Escape" s) = JArr [alice; alan] /\
  onKeydown "Enter" (onKeydown "Escape" s) = onKeydown "Escape" s.
Proof.
  assert (Ho : isOpen (run two_candidates init) = true) by reflexivity.
  split; [exact Ho|].
  destruct (escape_closes_and_keeps_items _ "Enter" Ho) as (_ & Hs & _ & _ & _ & _ & Hk).
  split; [exact Hs | exact Hk].
Defined.

Lemma nth_nth_error {A : Type} (l : list A) (n : nat) (d : A) :
  (n < List.length l)%nat -> nth_error l n = Some (nth n l d).
Proof.
  revert n. induction l as [|a l IH]; intros [|n] H; simpl in *; try lia; auto.
  apply IH. lia.
Qed.

(** What Enter does over a list. *)
Lemma onKeydown_enter (s : State) (items : list JsVal) :
  suggestions s = JArr items -> isOpen s = true ->
  onKeydown "Enter" s =
  if activeIndex s >=? 0
  then selectItem (nth (Z.to_nat (activeIndex s)) items JUndefined) s
  else s.
Proof.
  intros Hs Ho. unfold onKeydown. rewrite Ho, Hs. simpl.
  destruct (activeIndex s >=? 0) eqn:E; auto.
  destruct (activeIndex s <? 0) eqn:E'; auto. lia.
Qed.

(** X13.  Along every run whose payloads follow the interface, Enter
    over a list that is not empty either changes nothing (the dropdown
    is closed or no row is highlighted) or commits a candidate of that
    list, the one at [activeIndex]. *)
Theorem enter_commits_listed_candidate (evs : list Event) (items : list JsVal) :
  Forall event_conforms evs ->
  let s := run evs init in
  suggestions s = JArr items ->
  items <> [] ->
  (onKeydown "Enter" s = s /\ (isOpen s = false \/ activeIndex s = -1)) \/
  (exists u, nth_error items (Z.to_nat (activeIndex s)) = Some u /\ In u items /\
             onKeydown "Enter" s = selectItem u s).
Proof.
  intros Hev s Hs Hne.
  destruct (reachable_index_in_range evs Hev) as (Hlo & l & Hl & Hhi). fold s in Hlo, Hl, Hhi.
  assert (l = items) by congruence. subst l. specialize (Hhi Hne).
  destruct (isOpen s) eqn:Ho.
  - rewrite (onKeydown_enter s items Hs Ho).
    destruct (activeIndex s >=? 0) eqn:E.
    + right. exists (nth (Z.to_nat (activeIndex s)) items JUndefined).
      assert (Hlt : (Z.to_nat (activeIndex s) < List.length items)%nat) by lia.
      split; [now apply nth_nth_error|]. split; auto. now apply nth_In.
    + left. split; auto. right. lia.
  - left. split; auto. now apply onKeydown_closed.
Qed.

Lemma enter_commits_listed_candidate_witness :
  let evs := two_candidates ++ [Keydown "ArrowDown"; Keydown "ArrowDown"] in
  Forall event_conforms evs /\
  suggestions (run evs init) = JArr [alice; alan] /\
  exists u, In u [alice; alan] /\
            onKeydown "Enter" (run evs init) = selectItem u (run evs init).
Proof.
  set (evs := two_candidates ++ [Keydown "ArrowDown"; Keydown "ArrowDown"]).
  assert (Hev : Forall event_conforms evs) by (repeat constructor).
  assert (Hs : suggestions (run evs init) = JArr [alice; alan]) by reflexivity.
  assert (Hne : [alice; alan] <> []) by discriminate.
  split; [exact Hev|]. split; [exact Hs|].
  destruct (enter_commits_listed_candidate evs _ Hev Hs Hne) as [[_ [H|H]] | (u & _ & Hin & He)].
  - discriminate H.
  - discriminate H.
  - exists u. split; [exact Hin | exact He].
Defined.

(** X14.  Hovering a row and pressing Enter commits that row. *)
Theorem hover_then_enter_commits (s : State) (items : list JsVal) (idx : nat) (u : JsVal) :
  inputEnabled s = true ->
  isOpen s = true ->
  suggestions s = JArr items ->
  nth_error items idx = Some u ->
  run [MouseEnter idx; Keydown "Enter"] s = selectItem u (set_activeIndex (Z.of_nat idx) s).
Proof.
  intros Hen Ho Hs Hrow.
  assert (Hshown : dropdownShown s = true).
  { unfold dropdownShown. unfold inputEnabled in Hen. now rewrite Ho, Hen. }
  assert (Hrows : rows s = items) by (unfold rows; now rewrite Hs).
  simpl. rewrite Hshown, Hrows, Hrow.
  change (inputEnabled (set_activeIndex (Z.of_nat idx) s)) with (inputEnabled s).
  rewrite Hen. rewrite (onKeydown_enter _ items); auto.
  change (activeIndex (set_activeIndex (Z.of_nat idx) s)) with (Z.of_nat idx).
  destruct (Z.of_nat idx >=? 0) eqn:E; [|exfalso; rewrite Z.geb_leb in E; apply Z.leb_gt in E; lia].
  rewrite Nat2Z.id. now rewrite (nth_error_nth _ _ _ Hrow).
Qed.

Lemma hover_then_enter_commits_witness :
  let s := run two_candidates init in
  inputEnabled s = true /\ isOpen s = true /\ suggestions s = JArr [alice; alan] /\
  nth_error [alice; alan] 1 = Some alan /\
  selectedUser (run [MouseEnter 1; Keydown "Enter"] s) = alan.
Proof.
  assert (Hen : inputEnabled (run two_candidates init) = true) by reflexivity.
  assert (Ho : isOpen (run two_candidates init) = true) by reflexivity.
  assert (Hs : suggestions (run two_candidates init) = JArr [alice; alan]) by reflexivity.
  assert (Hrow : nth_error [alice; alan] 1 = Some alan) by reflexivity.
  repeat (split; [assumption|]).
  now rewrite (hover_then_enter_commits _ _ _ _ Hen Ho Hs Hrow).
Defined.

(* ================================================================== *)
(** * Selection *)
(* ================================================================== *)

(** X15.  After a commit of a truthy candidate the input is locked:
    typing, keys, focus and the rows of the dropdown do nothing.  The
    tag's button then clears the selection and unlocks the input, with
    the query and the list still empty and the dropdown closed, so that
    typing starts a new cycle. *)
Theorem commit_locks_until_cleared (s : State) (u : JsVal) (ev : Event) (text : string) :
  truthy u = true ->
  let s1 := selectItem u s in
  let s2 := step s1 ClickClear in
  match ev with
  | Input _ | Keydown _ | Focus | MouseDown _ | MouseEnter _ => step s1 ev = s1
  | _ => True
  end /\
  selectedUser s2 = JNull /\ inputEnabled s2 = true /\ searchQuery s2 = "" /\
  suggestions s2 = JArr [] /\ isOpen s2 = false /\
  step s2 (Input text) = onInput text s2.
Proof.
  intros Hu. cbv zeta. split.
  - destruct ev; auto; simpl; unfold inputEnabled, dropdownShown; simpl; now rewrite Hu.
  - simpl. rewrite Hu. repeat split.
Qed.

Lemma commit_locks_until_cleared_witness :
  truthy alice = true /\
  step (selectItem alice init) (Input "x") = selectItem alice init /\
  inputEnabled (step (selectItem alice init) ClickClear) = true.
Proof.
  assert (Hu : truthy alice = true) by reflexivity.
  split; [exact Hu|].
  destruct (commit_locks_until_cleared init alice (Input "x") "y" Hu) as (H1 & _ & H2 & _).
  split; [exact H1 | exact H2].
Defined.

Lemma step_selection_stands (u : JsVal) (base : list string) (s : State) (ev : Event) :
  truthy u = true -> keeps_selection ev ->
  selectedUser s = u /\ searchQuery s = "" /\ network s = base ->
  selectedUser (step s ev) = u /\ searchQuery (step s ev) = "" /\ network (step s ev) = base.
Proof.
  intros Hu Hev (Hs & Hq & Hn).
  assert (Hdis : inputEnabled s = false) by (unfold inputEnabled; now rewrite Hs, Hu).
  assert (Hhid : dropdownShown s = false).
  { unfold dropdownShown. rewrite Hs, Hu. apply andb_false_r. }
  destruct ev; simpl in *; rewrite ?Hdis, ?Hhid; auto; try contradiction.
  - apply (elapse_preserves
             (fun s => selectedUser s = u /\ searchQuery s = "" /\ network s = base)); auto.
    intros [] s0 (Hs0 & Hq0 & Hn0); [|simpl; auto].
    destruct (runCallback_frame CbFetch s0) as (_ & _ & Hq' & _).
    destruct (runCallback_frame_ui CbFetch s0) as (_ & Hu').
    rewrite Hq', Hu'. split; [|split]; auto.
    simpl. rewrite fetchUsers_network, Hq0. unfold calls. simpl. now rewrite app_nil_r.
  - rewrite settle_network. split; [|split]; auto.
    + rewrite <- Hs. frame.
    + rewrite <- Hq. frame.
  - unfold onUnmounted, clearTimeout. destruct (debounceTimer s); simpl; auto.
Qed.

(** X16.  While a committed truthy candidate stands (no clearing, no
    write by the host), whatever else happens, in any order, the bound
    value and the empty query stay and no network call is made: the
    debounce timer a commit leaves pending finds an empty query. *)
Theorem no_search_while_selected (s : State) (u : JsVal) (evs : list Event) :
  truthy u = true ->
  Forall keeps_selection evs ->
  let s' := run evs (selectItem u s) in
  selectedUser s' = u /\ searchQuery s' = "" /\ network s' = network s.
Proof.
  intros Hu Hev.
  apply (run_preserves_if
           (fun s' => selectedUser s' = u /\ searchQuery s' = "" /\ network s' = network s)
           keeps_selection); auto.
  intros s0 ev Hk H0. now apply step_selection_stands.
Qed.

Lemma no_search_while_selected_witness :
  let s := run (two_candidates ++ [Input "al"]) init in
  let evs := [Elapse 300; Input "x"; Blur; Elapse 500] in
  truthy alan = true /\ Forall keeps_selection evs /\
  network (run evs (selectItem alan s)) = network s.
Proof.
  assert (Hu : truthy alan = true) by reflexivity.
  assert (Hev : Forall keeps_selection [Elapse 300; Input "x"; Blur; Elapse 500]).
  { repeat constructor. }
  split; [exact Hu|]. split; [exact Hev|].
  exact (proj2 (proj2 (no_search_while_selected _ alan _ Hu Hev))).
Defined.

(* ================================================================== *)
(** * A whole lookup *)
(* ================================================================== *)








